(** * Linera-Poker: the Netlify deployment trigger ([frontend/deploy.py])

    A shallow embedding of the script and the properties of its runs.

    The script talks to the operating system: it changes directory, spawns
    [npx netlify-cli deploy], writes to the child's stdin, reads the child's
    combined output, and waits for it.  What those calls do is decided by
    the environment, so a run is a function of a [world] that answers each
    call; the script itself is written in a small writer-and-exception monad
    whose log is the sequence of calls that completed.

    Any of [os.chdir], [Popen], [stdin.write], [stdin.flush] and the
    iteration over [stdout] may raise; the iteration and [wait] may block
    for ever.  The console takes plain ASCII text; any other text, such as
    a line of the child's output with accented letters or the check mark of
    the confirmation, it takes or refuses as its encoding decides, and a
    refused [print] raises. *)

From Stdlib Require Import Bool Arith List ZArith Lia Ascii String.
Import ListNotations.

Open Scope string_scope.

(** ** Python strings

    A [str] is modelled as a [string] of 8-bit characters: ASCII text, with
    anything beyond ASCII carried as its UTF-8 bytes.  [lower] and [strip]
    act on the ASCII letters and the ASCII white space, which is all the
    two patterns of the script can meet. *)
Module Str.

(** [c.isupper()] for an ASCII character: ['A'] .. ['Z']. *)
Definition isupper (c : ascii) : bool :=
  ((65 <=? nat_of_ascii c) && (nat_of_ascii c <=? 90))%nat.

Definition to_lower (c : ascii) : ascii :=
  if isupper c then ascii_of_nat (nat_of_ascii c + 32) else c.

(** [s.lower()] *)
Fixpoint lower (s : string) : string :=
  match s with
  | EmptyString => EmptyString
  | String c r => String (to_lower c) (lower r)
  end.

(** [s.startswith(pat)] *)
Fixpoint startswith (pat s : string) : bool :=
  match pat, s with
  | EmptyString, _ => true
  | String _ _, EmptyString => false
  | String a p, String b r => Ascii.eqb a b && startswith p r
  end.

(** [pat in s]: [pat] occurs in [s] as a contiguous substring. *)
Fixpoint contains (pat s : string) : bool :=
  startswith pat s ||
  match s with
  | EmptyString => false
  | String _ r => contains pat r
  end.

(** [c.isspace()] for an ASCII character: tab, line feed, vertical tab,
    form feed, carriage return, the four separators 0x1c-0x1f, space. *)
Definition isspace (c : ascii) : bool :=
  let n := nat_of_ascii c in
  (((9 <=? n) && (n <=? 13)) || ((28 <=? n) && (n <=? 32)))%nat.

(** [s.lstrip()] *)
Fixpoint lstrip (s : string) : string :=
  match s with
  | EmptyString => EmptyString
  | String c r => if isspace c then lstrip r else s
  end.

(** [s.rstrip()] *)
Fixpoint rstrip (s : string) : string :=
  match s with
  | EmptyString => EmptyString
  | String c r =>
      match rstrip r with
      | EmptyString => if isspace c then EmptyString else String c EmptyString
      | r' => String c r'
      end
  end.

(** [s.strip()] *)
Definition strip (s : string) : string := rstrip (lstrip s).

(** [s.isascii()] *)
Fixpoint isascii (s : string) : bool :=
  match s with
  | EmptyString => true
  | String c r => (nat_of_ascii c <? 128)%nat && isascii r
  end.

(** Number of characters of [s] that are not white space. *)
Fixpoint inked (s : string) : nat :=
  match s with
  | EmptyString => 0%nat
  | String c r => ((if isspace c then 0 else 1) + inked r)%nat
  end.

End Str.

(** The line terminator ['\n']. *)
Definition nl : string := String (ascii_of_nat 10) EmptyString.

(** ** Exceptions, calls and the environment *)

(** An instance of [Exception] raised by a library call ([OSError] and its
    subclasses, [ValueError], [UnicodeDecodeError], ...): its class name and
    [str(e)].  [KeyboardInterrupt] and [SystemExit] are raised by none of
    the calls of the script and are not part of the model. *)
Record exn : Type := mk_exn { exn_class : string; exn_str : string }.

(** The arguments of the one [subprocess.Popen] call. *)
Record popen_call : Type := mk_popen {
  popen_args : list string;
  popen_stdin_pipe : bool;        (* stdin=subprocess.PIPE *)
  popen_stdout_pipe : bool;       (* stdout=subprocess.PIPE *)
  popen_stderr_to_stdout : bool;  (* stderr=subprocess.STDOUT *)
  popen_text : bool;              (* text=True *)
  popen_bufsize : Z               (* bufsize=1 *)
}.

(** What a run does to the outside, one entry per call that completed. *)
Inductive event : Type :=
| Print (text : string)          (* written to the console, terminator included *)
| Chdir (path : string)          (* os.chdir returned *)
| Spawn (call : popen_call)      (* subprocess.Popen returned a process *)
| StdinWrite (data : string)     (* process.stdin.write returned *)
| StdinFlush                     (* process.stdin.flush returned *)
| StdoutLine (line : string)     (* iterating process.stdout yielded a line *)
| Waited (returncode : Z).       (* process.wait returned *)

(** The environment of one run: the answer to each call the script can make.
    [None] is normal return, [Some e] is the exception the call raises.
    [console] answers the printing of a text that is not plain ASCII.
    [stdout_lines] are the lines of the child's combined output; after
    them the stream raises [stdout_error], or else never ends when
    [stdout_hangs] (a pipe that some process keeps open), or else ends.
    [child_exit] is the child's exit code, [None] for a child that never
    terminates, on which [wait] blocks for ever. *)
Record world : Type := mk_world {
  os_chdir : string -> option exn;
  popen : popen_call -> option exn;
  stdin_write : nat -> string -> option exn;   (* k-th write, with its data *)
  stdin_flush : nat -> option exn;             (* k-th flush *)
  stdout_lines : list string;
  stdout_error : option exn;
  child_exit : option Z;
  console : string -> option exn;              (* print of text beyond ASCII *)
  stdout_hangs : bool
}.

(** ** The monad of runs: a log of events and how the computation ended *)

Inductive outcome (A : Type) : Type :=
| Returns (a : A)
| Raises (e : exn)
| Blocks.
Arguments Returns {A} a.
Arguments Raises {A} e.
Arguments Blocks {A}.

Definition run (A : Type) : Type := (list event * outcome A)%type.

Definition ret {A : Type} (a : A) : run A := ([], Returns a).

Definition bind {A B : Type} (m : run A) (f : A -> run B) : run B :=
  match m with
  | (t, Returns a) => let (t', o) := f a in ((t ++ t')%list, o)
  | (t, Raises e) => (t, Raises e)
  | (t, Blocks) => (t, Blocks)
  end.

Notation "x <- m ;; k" := (bind m (fun x => k))
  (at level 61, m at next level, right associativity).
Notation "m ;; k" := (bind m (fun _ => k))
  (at level 61, right associativity).

Definition emit (ev : event) : run unit := ([ev], Returns tt).
Definition raise {A : Type} (e : exn) : run A := ([], Raises e).
Definition block {A : Type} : run A := ([], Blocks).

(** [try: body  except Exception as e: handler e] *)
Definition try_except {A : Type} (body : run A) (handler : exn -> run A) : run A :=
  match body with
  | (t, Raises e) => let (t', o) := handler e in ((t ++ t')%list, o)
  | done => done
  end.

(** A call whose only effect is its event, unless the environment makes it raise. *)
Definition call (answer : option exn) (ev : event) : run unit :=
  match answer with
  | None => emit ev
  | Some e => raise e
  end.

(** [print(s)] of a text the console is sure to take: the greeting, which
    is plain ASCII, and the handler's message (the text of a library
    exception). *)
Definition print (s : string) : run unit := emit (Print (s ++ nl)).

(** What the console answers to the printing of [text]. *)
Definition print_answer (w : world) (text : string) : option exn :=
  if Str.isascii text then None else console w text.

(** [print(s)] and [print(s, end=e)] of any text: the console may refuse it. *)
Definition console_print (w : world) (s : string) : run unit :=
  call (print_answer w (s ++ nl)) (Print (s ++ nl)).
Definition console_print_end (w : world) (s e : string) : run unit :=
  call (print_answer w (s ++ e)) (Print (s ++ e)).

(** ** The script *)

Definition frontend_dir : string := "C:\Users\prate\linera\linera-poker\frontend".

Definition cmd : list string :=
  ["npx"; "netlify-cli"; "deploy"; "--prod"; "--dir=dist"].

Definition inputs : list string := [""; ""].

Definition netlify_call : popen_call :=
  {| popen_args := cmd;
     popen_stdin_pipe := true;
     popen_stdout_pipe := true;
     popen_stderr_to_stdout := true;
     popen_text := true;
     popen_bufsize := 1 |}.

(** The test of line 44: ['https://' in line.lower() and 'netlify' in line.lower()] *)
Definition is_netlify_url (line : string) : bool :=
  Str.contains "https://" (Str.lower line) && Str.contains "netlify" (Str.lower line).

(** The f-string of line 45. *)
Definition found_url (line : string) : string :=
  nl ++ "✅ Found URL: " ++ Str.strip line.

(** [for inp in inputs: process.stdin.write(inp + '\n'); process.stdin.flush()],
    [k] counting the iterations already made. *)
Fixpoint send_inputs (w : world) (k : nat) (inps : list string) : run unit :=
  match inps with
  | [] => ret tt
  | inp :: rest =>
      call (stdin_write w k (inp ++ nl)) (StdinWrite (inp ++ nl)) ;;
      call (stdin_flush w k) StdinFlush ;;
      send_inputs w (S k) rest
  end.

(** The body of the loop of lines 42-45, for one line. *)
Definition echo_line (w : world) (line : string) : run unit :=
  console_print_end w line "" ;;
  if is_netlify_url line then console_print w (found_url line) else ret tt.

(** [for line in process.stdout: ...] over the lines the stream yields. *)
Fixpoint read_lines (w : world) (lines : list string) : run unit :=
  match lines with
  | [] => ret tt
  | line :: rest => emit (StdoutLine line) ;; echo_line w line ;; read_lines w rest
  end.

(** The whole loop: the lines, then the error of the stream, its blocking
    for ever, or its end. *)
Definition read_output (w : world) : run unit :=
  read_lines w (stdout_lines w) ;;
  match stdout_error w with
  | Some e => raise e
  | None => if stdout_hangs w then block else ret tt
  end.

(** [process.wait()], giving [process.returncode]. *)
Definition process_wait (w : world) : run Z :=
  match child_exit w with
  | Some rc => emit (Waited rc) ;; ret rc
  | None => block
  end.

(** The body of the [try] (lines 27-48). *)
Definition try_body (w : world) : run bool :=
  call (popen w netlify_call) (Spawn netlify_call) ;;
  send_inputs w 0 inputs ;;
  read_output w ;;
  returncode <- process_wait w ;;
  ret (returncode =? 0)%Z.

(** The handler of the [except] (lines 50-52). *)
Definition except_handler (e : exn) : run bool :=
  print ("Error: " ++ exn_str e) ;; ret false.

Definition deploy_to_netlify (w : world) : run bool :=
  print "Deploying to Netlify..." ;;
  call (os_chdir w frontend_dir) (Chdir frontend_dir) ;;
  try_except (try_body w) except_handler.

(** How the program ends: [sys.exit(code)], an exception nobody caught
    (the interpreter prints a traceback), or never. *)
Inductive termination : Type :=
| Exit (code : Z)
| Traceback (e : exn)
| Hangs.

(** [success = deploy_to_netlify(); sys.exit(0 if success else 1)] *)
Definition main (w : world) : list event * termination :=
  match deploy_to_netlify w with
  | (t, Returns success) => (t, Exit (if success then 0 else 1)%Z)
  | (t, Raises e) => (t, Traceback e)
  | (t, Blocks) => (t, Hangs)
  end.

(** ** Observations on a run *)

Definition trace (w : world) : list event := fst (main w).
Definition ending (w : world) : termination := snd (main w).

(** The trigger's boolean result, when it returns one. *)
Definition result (w : world) : outcome bool := snd (deploy_to_netlify w).

(** What was written to the child's stdin, in order. *)
Fixpoint stdin_writes (t : list event) : list string :=
  match t with
  | [] => []
  | StdinWrite data :: r => data :: stdin_writes r
  | _ :: r => stdin_writes r
  end.

(** The calls on the child process (everything but console output and chdir). *)
Definition on_process (ev : event) : bool :=
  match ev with
  | Print _ | Chdir _ => false
  | _ => true
  end.

Definition process_calls (t : list event) : list event := filter on_process t.

(** Everything but console output and the reads of the child's output. *)
Definition is_control (ev : event) : bool :=
  match ev with
  | Print _ | StdoutLine _ => false
  | _ => true
  end.

Definition is_print (ev : event) : bool :=
  match ev with
  | Print _ => true
  | _ => false
  end.

Definition is_error_report (ev : event) : bool :=
  match ev with
  | Print text => Str.startswith "Error: " text
  | _ => false
  end.

(** The child was spawned in the run with log [t]. *)
Definition spawned (t : list event) : Prop := In (Spawn netlify_call) t.

(** ** Conditions on the environment *)

(** Neither a write nor a flush of the two inputs raises. *)
Definition writes_ok (w : world) : Prop :=
  forall k, (k < 2)%nat -> stdin_write w k nl = None /\ stdin_flush w k = None.

(** Some write or flush of the two inputs raises. *)
Definition write_raises (w : world) : Prop :=
  exists k, (k < 2)%nat /\ (stdin_write w k nl <> None \/ stdin_flush w k <> None).

(** The same environment with other lines on the child's output. *)
Definition with_lines (w : world) (lines : list string) : world :=
  {| os_chdir := os_chdir w;
     popen := popen w;
     stdin_write := stdin_write w;
     stdin_flush := stdin_flush w;
     stdout_lines := lines;
     stdout_error := stdout_error w;
     child_exit := child_exit w;
     console := console w;
     stdout_hangs := stdout_hangs w |}.

(** The order of calls the script is written in, for the environment [w]:
    spawn, the two inputs, the lines of the output, the wait. *)
Definition linear_order (w : world) : list event :=
  (Spawn netlify_call
   :: [StdinWrite nl; StdinFlush; StdinWrite nl; StdinFlush]
   ++ map StdoutLine (stdout_lines w)
   ++ match child_exit w with
      | Some rc => [Waited rc]
      | None => []
      end)%list.

(** ** Matching without regard to case, as the specification words it *)

(** Two characters are the same letter in possibly different case. *)
Definition same_letter (c d : ascii) : Prop :=
  c = d \/
  exists i, (i < 26)%nat /\
    ((nat_of_ascii c = 65 + i /\ nat_of_ascii d = 97 + i)%nat \/
     (nat_of_ascii c = 97 + i /\ nat_of_ascii d = 65 + i)%nat).

Inductive same_ignoring_case : string -> string -> Prop :=
| sic_empty : same_ignoring_case EmptyString EmptyString
| sic_char c d s t :
    same_letter c d -> same_ignoring_case s t ->
    same_ignoring_case (String c s) (String d t).

(** [line] contains [pat], matched case-insensitively. *)
Definition contains_ignoring_case (pat line : string) : Prop :=
  exists before found after,
    line = before ++ found ++ after /\ same_ignoring_case found pat.

(** ** Sample environments *)

Definition broken_pipe : exn := mk_exn "BrokenPipeError" "[Errno 32] Broken pipe".
Definition not_found : exn :=
  mk_exn "FileNotFoundError" "[WinError 2] The system cannot find the file specified".

(** Everything works and the child exits with [rc] after printing [lines]. *)
Definition calm (lines : list string) (rc : Z) : world :=
  {| os_chdir := fun _ => None;
     popen := fun _ => None;
     stdin_write := fun _ _ => None;
     stdin_flush := fun _ => None;
     stdout_lines := lines;
     stdout_error := None;
     child_exit := Some rc;
     console := fun _ => None;
     stdout_hangs := false |}.

(** The frontend directory does not exist. *)
Definition no_directory : world :=
  {| os_chdir := fun _ => Some not_found;
     popen := fun _ => None;
     stdin_write := fun _ _ => None;
     stdin_flush := fun _ => None;
     stdout_lines := [];
     stdout_error := None;
     child_exit := Some 0%Z;
     console := fun _ => None;
     stdout_hangs := false |}.

(** [npx] is not on the path. *)
Definition no_tool : world :=
  {| os_chdir := fun _ => None;
     popen := fun _ => Some not_found;
     stdin_write := fun _ _ => None;
     stdin_flush := fun _ => None;
     stdout_lines := [];
     stdout_error := None;
     child_exit := None;
     console := fun _ => None;
     stdout_hangs := false |}.

(** The child exits with code 0 without reading its stdin: the first write
    meets a closed pipe. *)
Definition closed_stdin : world :=
  {| os_chdir := fun _ => None;
     popen := fun _ => None;
     stdin_write := fun _ _ => Some broken_pipe;
     stdin_flush := fun _ => None;
     stdout_lines := [];
     stdout_error := None;
     child_exit := Some 0%Z;
     console := fun _ => None;
     stdout_hangs := false |}.


Definition cannot_encode : exn :=
  mk_exn "UnicodeEncodeError"
         "'charmap' codec can't encode character '\u2705' in position 1".

(** Everything works and the child exits with [rc] after printing
    [lines], but the console has a legacy code page: it refuses the check
    mark, and any text beyond ASCII. *)
Definition legacy_console (lines : list string) (rc : Z) : world :=
  {| os_chdir := fun _ => None;
     popen := fun _ => None;
     stdin_write := fun _ _ => None;
     stdin_flush := fun _ => None;
     stdout_lines := lines;
     stdout_error := None;
     child_exit := Some rc;
     console := fun _ => Some cannot_encode;
     stdout_hangs := false |}.

(** The child exits with [rc], but a process it started keeps the pipe of
    its output open for ever. *)
Definition held_pipe (lines : list string) (rc : Z) : world :=
  {| os_chdir := fun _ => None;
     popen := fun _ => None;
     stdin_write := fun _ _ => None;
     stdin_flush := fun _ => None;
     stdout_lines := lines;
     stdout_error := None;
     child_exit := Some rc;
     console := fun _ => None;
     stdout_hangs := true |}.

(** A line with the [https://] address of the deployed site. *)
Definition https_line : string := "Website URL: https://poker.netlify.app" ++ nl.

(** A line with a plain [http://] address of the provider. *)
Definition http_line : string := "Logs: http://app.netlify.com/sites/poker" ++ nl.

Definition sample_output : list string :=
  ["Deploying to main site URL..." ++ nl;
   "Unique deploy URL: https://abc123--poker.netlify.app" ++ nl;
   "Website URL:       HTTPS://Poker.Netlify.App" ++ nl;
   "Logs: http://app.netlify.com/sites/poker" ++ nl].

(** ** The log of a run, piece by piece *)

(** The greeting of line 8. *)
Definition hello : event := Print ("Deploying to Netlify..." ++ nl).

(** What the handler prints for [e]. *)
Definition error_report (e : exn) : event := Print ("Error: " ++ exn_str e ++ nl).

(** What the loop logs for one line, and for all of them. *)
Definition line_log (line : string) : list event :=
  StdoutLine line :: Print line ::
  (if is_netlify_url line then [Print (found_url line ++ nl)] else []).

Definition lines_log (lines : list string) : list event := flat_map line_log lines.

(** The log up to the point where both inputs have been sent. *)
Definition sent : list event :=
  [hello; Chdir frontend_dir; Spawn netlify_call;
   StdinWrite nl; StdinFlush; StdinWrite nl; StdinFlush].

(** The lines read from the child's output, in order. *)
Fixpoint lines_read (t : list event) : list string :=
  match t with
  | [] => []
  | StdoutLine line :: r => line :: lines_read r
  | _ :: r => lines_read r
  end.

(** ** Further observations *)

Definition is_spawn (ev : event) : bool :=
  match ev with
  | Spawn _ => true
  | _ => false
  end.

(** The console takes the echo of [line], and its confirmation if it has one. *)
Definition line_prints (w : world) (line : string) : Prop :=
  print_answer w line = None /\
  (is_netlify_url line = true -> print_answer w (found_url line ++ nl) = None).

(** The console takes all that the loop prints for [lines]. *)
Definition echo_ok (w : world) (lines : list string) : Prop :=
  Forall (line_prints w) lines.

(** The child's output ends: the stream neither raises nor blocks. *)
Definition output_ends (w : world) : Prop :=
  stdout_error w = None /\ stdout_hangs w = false.

(** Every call up to the end of the child's output returns. *)
Definition all_calls_return (w : world) : Prop :=
  os_chdir w frontend_dir = None /\ popen w netlify_call = None /\
  writes_ok w /\ echo_ok w (stdout_lines w) /\ output_ends w.

(** No write or flush raises while [inps] are sent from iteration [k] on. *)
Definition sends_ok (w : world) (k : nat) (inps : list string) : Prop :=
  forall j inp, nth_error inps j = Some inp ->
    stdin_write w (k + j) (inp ++ nl) = None /\ stdin_flush w (k + j) = None.

(** What [send_inputs] logs for [inps] when nothing raises. *)
Definition sent_log (inps : list string) : list event :=
  flat_map (fun inp => [StdinWrite (inp ++ nl); StdinFlush]) inps.

(** [s] is made of white space only; [s] has no white space at all. *)
Fixpoint all_space (s : string) : bool :=
  match s with
  | EmptyString => true
  | String c r => Str.isspace c && all_space r
  end.

Fixpoint no_space (s : string) : bool :=
  match s with
  | EmptyString => true
  | String c r => negb (Str.isspace c) && no_space r
  end.

(** Everything works, but the child never terminates. *)
Definition sleeper (lines : list string) : world :=
  {| os_chdir := fun _ => None;
     popen := fun _ => None;
     stdin_write := fun _ _ => None;
     stdin_flush := fun _ => None;
     stdout_lines := lines;
     stdout_error := None;
     child_exit := None;
     console := fun _ => None;
     stdout_hangs := false |}.

(** The second flush raises. *)
Definition late_flush : world :=
  {| os_chdir := fun _ => None;
     popen := fun _ => None;
     stdin_write := fun _ _ => None;
     stdin_flush := fun k => if (k =? 1)%nat then Some broken_pipe else None;
     stdout_lines := sample_output;
     stdout_error := None;
     child_exit := Some 0%Z;
     console := fun _ => None;
     stdout_hangs := false |}.

(** The events of the loop over the output: reads and prints. *)
Definition in_loop (ev : event) : bool :=
  match ev with
  | StdoutLine _ | Print _ => true
  | _ => false
  end.

(** What the loop over the child's output logs in the environment [w]. *)
Definition loop_log (w : world) : list event := fst (read_lines w (stdout_lines w)).

(** Nothing raises from the sending of the inputs to the end of the output,
    and the output ends. *)
Definition quiet (w : world) : Prop :=
  writes_ok w /\ echo_ok w (stdout_lines w) /\ output_ends w.

(** * Proofs *)

(** ** The model on sample inputs *)

Example lower_mixed : Str.lower "HTTPS://App.Netlify.COM" = "https://app.netlify.com".
Proof. reflexivity. Qed.

Example strip_line :
  Str.strip ("  Website URL: https://x.netlify.app " ++ nl) = "Website URL: https://x.netlify.app".
Proof. reflexivity. Qed.

Example contains_yes : Str.contains "netlify" "https://x.netlify.app" = true.
Proof. reflexivity. Qed.

Example contains_no : Str.contains "https://" "http://x.netlify.app" = false.
Proof. reflexivity. Qed.

Example calm_run_exits_0 : ending (calm sample_output 0) = Exit 0.
Proof. reflexivity. Qed.

Example calm_run_exits_1 : ending (calm sample_output 2) = Exit 1.
Proof. reflexivity. Qed.

Example calm_run_writes : stdin_writes (trace (calm sample_output 0)) = [nl; nl].
Proof. reflexivity. Qed.

Example no_tool_run :
  main no_tool =
  ([Print ("Deploying to Netlify..." ++ nl); Chdir frontend_dir;
    Print ("Error: [WinError 2] The system cannot find the file specified" ++ nl)],
   Exit 1).
Proof. reflexivity. Qed.

(** ** Strings *)

Section StringFacts.

Lemma append_assoc (a b c : string) : (a ++ b) ++ c = a ++ (b ++ c).
Proof. induction a as [|x a IH]; simpl; [reflexivity | now rewrite IH]. Qed.

Lemma append_nil_r (a : string) : a ++ "" = a.
Proof. induction a as [|x a IH]; simpl; [reflexivity | now rewrite IH]. Qed.

Lemma startswith_spec (pat s : string) :
  Str.startswith pat s = true <-> exists rest, s = pat ++ rest.
Proof.
  revert s; induction pat as [|a pat IH]; intros s; simpl.
  - split; [intros _; now exists s | reflexivity].
  - destruct s as [|b s].
    + split; [discriminate | intros [rest H]; discriminate].
    + rewrite andb_true_iff, Ascii.eqb_eq, IH. split.
      * intros [-> [rest ->]]. now exists rest.
      * intros [rest H]. injection H as -> ->. split; [reflexivity | now exists rest].
Qed.

Lemma contains_spec (pat s : string) :
  Str.contains pat s = true <-> exists before after, s = before ++ pat ++ after.
Proof.
  induction s as [|b s IH]; simpl.
  - rewrite orb_false_r, startswith_spec. split.
    + intros [rest H]. now exists "", rest.
    + intros [[|x before] [after H]]; [now exists after | discriminate].
  - rewrite orb_true_iff, IH, startswith_spec. split.
    + intros [[rest H] | [before [after ->]]].
      * now exists "", rest.
      * now exists (String b before), after.
    + intros [[|x before] [after H]].
      * left. now exists after.
      * right. injection H as _ ->. now exists before, after.
Qed.

Lemma lower_app (a b : string) : Str.lower (a ++ b) = Str.lower a ++ Str.lower b.
Proof. induction a as [|x a IH]; simpl; [reflexivity | now rewrite IH]. Qed.

(** A split of [lower s] comes from a split of [s]. *)
Lemma lower_split (s a b : string) :
  Str.lower s = a ++ b ->
  exists a' b', s = a' ++ b' /\ Str.lower a' = a /\ Str.lower b' = b.
Proof.
  revert s; induction a as [|x a IH]; intros s H.
  - now exists "", s.
  - destruct s as [|y s]; [discriminate|].
    simpl in H. injection H as Hx Hs.
    destruct (IH _ Hs) as (a' & b' & -> & Ha & Hb).
    exists (String y a'), b'. simpl. now rewrite Hx, Ha.
Qed.

Lemma isupper_spec (c : ascii) :
  Str.isupper c = true <-> (65 <= nat_of_ascii c <= 90)%nat.
Proof.
  unfold Str.isupper. rewrite andb_true_iff, !Nat.leb_le. tauto.
Qed.

Lemma nat_of_to_lower (c : ascii) :
  nat_of_ascii (Str.to_lower c) =
  (if Str.isupper c then nat_of_ascii c + 32 else nat_of_ascii c)%nat.
Proof.
  unfold Str.to_lower. destruct (Str.isupper c) eqn:E; [|reflexivity].
  apply isupper_spec in E. apply nat_ascii_embedding. lia.
Qed.

Lemma ascii_by_code (c d : ascii) : nat_of_ascii c = nat_of_ascii d -> c = d.
Proof.
  intros H. rewrite <- (ascii_nat_embedding c), <- (ascii_nat_embedding d).
  now rewrite H.
Qed.

(** [lower] identifies exactly the two cases of a letter. *)
Lemma to_lower_same_letter (c d : ascii) :
  Str.to_lower c = Str.to_lower d <-> same_letter c d.
Proof.
  split.
  - intros H. apply (f_equal nat_of_ascii) in H.
    rewrite !nat_of_to_lower in H.
    destruct (Str.isupper c) eqn:Ec, (Str.isupper d) eqn:Ed.
    + left. apply ascii_by_code. lia.
    + right. apply isupper_spec in Ec.
      exists (nat_of_ascii c - 65)%nat. split; [lia|]. left. lia.
    + right. apply isupper_spec in Ed.
      exists (nat_of_ascii d - 65)%nat. split; [lia|]. right. lia.
    + left. now apply ascii_by_code.
  - intros [-> | (i & Hi & [[Hc Hd] | [Hc Hd]])]; [reflexivity | |];
      apply ascii_by_code; rewrite !nat_of_to_lower.
    + assert (Ec : Str.isupper c = true) by (apply isupper_spec; lia).
      assert (Ed : Str.isupper d = false).
      { apply not_true_is_false. rewrite isupper_spec. lia. }
      rewrite Ec, Ed. lia.
    + assert (Ec : Str.isupper c = false).
      { apply not_true_is_false. rewrite isupper_spec. lia. }
      assert (Ed : Str.isupper d = true) by (apply isupper_spec; lia).
      rewrite Ec, Ed. lia.
Qed.

Lemma lower_same_ignoring_case (s t : string) :
  Str.lower s = Str.lower t <-> same_ignoring_case s t.
Proof.
  split.
  - revert t; induction s as [|c s IH]; intros [|d t] H; try discriminate.
    + constructor.
    + simpl in H. injection H as Hc Hs.
      constructor; [now apply to_lower_same_letter | now apply IH].
  - induction 1 as [|c d s t Hcd _ IH]; simpl; [reflexivity|].
    apply to_lower_same_letter in Hcd. now rewrite Hcd, IH.
Qed.

(** The test of the script, [pat in line.lower()] for a pattern already in
    lower case, is containment matched case-insensitively. *)
Lemma contains_lower_spec (pat line : string) :
  Str.lower pat = pat ->
  Str.contains pat (Str.lower line) = true <-> contains_ignoring_case pat line.
Proof.
  intros Hpat. rewrite contains_spec. split.
  - intros (b & a & H).
    destruct (lower_split _ _ _ H) as (b' & r' & -> & _ & Hr).
    destruct (lower_split _ _ _ Hr) as (f' & a' & -> & Hf & _).
    exists b', f', a'. split; [reflexivity|].
    apply lower_same_ignoring_case. now rewrite Hpat.
  - intros (b & f & a & -> & Hf).
    apply lower_same_ignoring_case in Hf. rewrite Hpat in Hf.
    exists (Str.lower b), (Str.lower a). now rewrite !lower_app, Hf.
Qed.

Lemma inked_app (a b : string) : Str.inked (a ++ b) = (Str.inked a + Str.inked b)%nat.
Proof. induction a as [|x a IH]; simpl; [reflexivity | rewrite IH; lia]. Qed.

Lemma inked_lstrip (s : string) : Str.inked (Str.lstrip s) = Str.inked s.
Proof.
  induction s as [|c s IH]; simpl; [reflexivity|].
  destruct (Str.isspace c) eqn:E; simpl; [exact IH | now rewrite E].
Qed.

Lemma inked_rstrip (s : string) : Str.inked (Str.rstrip s) = Str.inked s.
Proof.
  induction s as [|c s IH]; simpl; [reflexivity|].
  destruct (Str.rstrip s) as [|d r] eqn:E.
  - rewrite <- IH. destruct (Str.isspace c) eqn:Ec; simpl; now rewrite ?Ec.
  - rewrite <- IH. reflexivity.
Qed.

(** [strip] removes white space only. *)
Lemma inked_strip (s : string) : Str.inked (Str.strip s) = Str.inked s.
Proof. unfold Str.strip. now rewrite inked_rstrip, inked_lstrip. Qed.

End StringFacts.

(** The confirmation always has more ink than the line it quotes, so it is
    never mistaken for the echo of that line. *)
Lemma found_url_fresh (line : string) : found_url line ++ nl <> line.
Proof.
  intros H. apply (f_equal Str.inked) in H.
  unfold found_url in H. rewrite !inked_app, inked_strip in H.
  change (Str.inked "✅ Found URL: ") with 12%nat in H. lia.
Qed.

(** ** Logs *)

Section LogFacts.

Lemma stdin_writes_app (a b : list event) :
  stdin_writes (a ++ b) = (stdin_writes a ++ stdin_writes b)%list.
Proof.
  induction a as [|ev a IH]; [reflexivity|].
  destruct ev; simpl; now rewrite ?IH.
Qed.

Lemma lines_read_app (a b : list event) :
  lines_read (a ++ b) = (lines_read a ++ lines_read b)%list.
Proof.
  induction a as [|ev a IH]; [reflexivity|].
  destruct ev; simpl; now rewrite ?IH.
Qed.

Lemma lines_log_app (a b : list string) :
  lines_log (a ++ b) = (lines_log a ++ lines_log b)%list.
Proof. apply flat_map_app. Qed.

Lemma stdin_writes_lines_log (lines : list string) : stdin_writes (lines_log lines) = [].
Proof.
  induction lines as [|line rest IH]; [reflexivity|].
  simpl. now destruct (is_netlify_url line).
Qed.

Lemma lines_read_lines_log (lines : list string) : lines_read (lines_log lines) = lines.
Proof.
  induction lines as [|line rest IH]; [reflexivity|].
  simpl. destruct (is_netlify_url line); simpl; now rewrite IH.
Qed.

Lemma process_calls_lines_log (lines : list string) :
  process_calls (lines_log lines) = map StdoutLine lines.
Proof.
  induction lines as [|line rest IH]; [reflexivity|].
  unfold process_calls in *. simpl.
  destruct (is_netlify_url line); simpl; now rewrite IH.
Qed.

Lemma control_lines_log (lines : list string) : filter is_control (lines_log lines) = [].
Proof.
  induction lines as [|line rest IH]; [reflexivity|].
  simpl. now destruct (is_netlify_url line).
Qed.


(** The loop logs reads and prints, nothing else. *)
Lemma in_lines_log (ev : event) (lines : list string) :
  In ev (lines_log lines) -> exists text, ev = StdoutLine text \/ ev = Print text.
Proof.
  unfold lines_log. rewrite in_flat_map. intros (line & _ & H).
  unfold line_log in H. destruct (is_netlify_url line); simpl in H;
    intuition (subst; eauto).
Qed.


End LogFacts.

(** What holds of any log made of reads and prints only. *)
Lemma in_loop_quiet (t : list event) :
  forallb in_loop t = true ->
  stdin_writes t = [] /\ filter is_control t = [] /\ filter is_spawn t = [] /\
  (forall rc, ~ In (Waited rc) t) /\
  (forall ev, In ev t -> exists text, ev = StdoutLine text \/ ev = Print text).
Proof.
  induction t as [|ev t IH]; [now repeat split|].
  cbn [forallb]. rewrite andb_true_iff. intros [Hev Ht].
  destruct (IH Ht) as (H1 & H2 & H3 & H4 & H5).
  destruct ev; try discriminate Hev; cbn [stdin_writes filter is_control is_spawn];
    (split; [exact H1 | split; [exact H2 | split; [exact H3 | split]]]).
  - intros rc [H | H]; [discriminate H | now apply (H4 rc)].
  - intros ev [<- | H]; [eauto | now apply H5].
  - intros rc [H | H]; [discriminate H | now apply (H4 rc)].
  - intros ev [<- | H]; [eauto | now apply H5].
Qed.

(** ** The shape of a run *)

Lemma echo_line_cases (w : world) (line : string) :
  echo_line w line =
  match print_answer w line with
  | Some e => ([], Raises e)
  | None =>
      if is_netlify_url line then
        match print_answer w (found_url line ++ nl) with
        | Some e => ([Print line], Raises e)
        | None => ([Print line; Print (found_url line ++ nl)], Returns tt)
        end
      else ([Print line], Returns tt)
  end.
Proof.
  unfold echo_line, console_print_end, console_print. rewrite append_nil_r.
  destruct (print_answer w line); [reflexivity|].
  destruct (is_netlify_url line); [|reflexivity].
  now destruct (print_answer w (found_url line ++ nl)).
Qed.

Lemma echo_line_ok (w : world) (line : string) :
  line_prints w line ->
  echo_line w line =
  (Print line :: (if is_netlify_url line then [Print (found_url line ++ nl)] else []),
   Returns tt).
Proof.
  intros [Ha Hb]. rewrite echo_line_cases, Ha.
  destruct (is_netlify_url line); [|reflexivity]. now rewrite Hb.
Qed.

Lemma echo_line_returns (w : world) (line : string) :
  snd (echo_line w line) = Returns tt -> line_prints w line.
Proof.
  rewrite echo_line_cases. unfold line_prints.
  destruct (print_answer w line); [discriminate|].
  destruct (is_netlify_url line); [|now split].
  destruct (print_answer w (found_url line ++ nl)); [discriminate | now split].
Qed.

Lemma echo_line_never_blocks (w : world) (line : string) :
  snd (echo_line w line) <> Blocks.
Proof.
  rewrite echo_line_cases.
  destruct (print_answer w line); [discriminate|].
  destruct (is_netlify_url line); [|discriminate].
  destruct (print_answer w (found_url line ++ nl)); discriminate.
Qed.

Lemma echo_line_prints (w : world) (line : string) :
  forallb is_print (fst (echo_line w line)) = true.
Proof.
  rewrite echo_line_cases.
  destruct (print_answer w line); [reflexivity|].
  destruct (is_netlify_url line); [|reflexivity].
  now destruct (print_answer w (found_url line ++ nl)).
Qed.

Lemma read_lines_cons (w : world) (line : string) (rest : list string) :
  read_lines w (line :: rest) =
  match snd (echo_line w line) with
  | Returns _ =>
      (StdoutLine line :: fst (echo_line w line) ++ fst (read_lines w rest),
       snd (read_lines w rest))
  | Raises e => (StdoutLine line :: fst (echo_line w line), Raises e)
  | Blocks => (StdoutLine line :: fst (echo_line w line), Blocks)
  end%list.
Proof.
  cbn [read_lines]. destruct (echo_line w line) as [t [[]|e|]]; cbn [fst snd].
  - unfold bind, emit. now destruct (read_lines w rest) as [t' o].
  - reflexivity.
  - reflexivity.
Qed.

(** While the console takes what is printed, the loop logs, for each line,
    its read, its echo and its confirmation if it has one. *)
Lemma read_lines_ok (w : world) (lines : list string) :
  echo_ok w lines -> read_lines w lines = (lines_log lines, Returns tt).
Proof.
  induction 1 as [|line rest Hline _ IH]; [reflexivity|].
  rewrite read_lines_cons, (echo_line_ok w line Hline), IH. reflexivity.
Qed.

Lemma read_lines_app (w : world) (before after : list string) :
  echo_ok w before ->
  read_lines w (before ++ after) =
  ((lines_log before ++ fst (read_lines w after))%list, snd (read_lines w after)).
Proof.
  induction 1 as [|line rest Hline _ IH];
    [cbn [app lines_log flat_map]; now destruct (read_lines w after)|].
  change ((line :: rest) ++ after)%list with (line :: (rest ++ after))%list.
  rewrite read_lines_cons, (echo_line_ok w line Hline), IH. cbn [fst snd].
  change (lines_log (line :: rest)) with (line_log line ++ lines_log rest)%list.
  rewrite <- app_assoc. reflexivity.
Qed.

(** The loop returns only when the console took all it printed. *)
Lemma read_lines_returns (w : world) (lines : list string) :
  snd (read_lines w lines) = Returns tt -> echo_ok w lines.
Proof.
  induction lines as [|line rest IH]; [constructor|].
  rewrite read_lines_cons.
  destruct (snd (echo_line w line)) as [[]|e|] eqn:E; try discriminate.
  cbn [snd]. intros H. constructor; [now apply echo_line_returns | now apply IH].
Qed.

Lemma read_lines_never_blocks (w : world) (lines : list string) :
  snd (read_lines w lines) <> Blocks.
Proof.
  induction lines as [|line rest IH]; [discriminate|].
  rewrite read_lines_cons.
  destruct (snd (echo_line w line)) as [[]|e|] eqn:E; cbn [snd];
    [exact IH | discriminate |].
  now apply echo_line_never_blocks in E.
Qed.

(** The loop logs reads and prints, nothing else. *)
Lemma read_lines_in_loop (w : world) (lines : list string) :
  forallb in_loop (fst (read_lines w lines)) = true.
Proof.
  assert (Hecho : forall line, forallb in_loop (fst (echo_line w line)) = true).
  { intros line. pose proof (echo_line_prints w line) as H.
    rewrite forallb_forall in *. intros ev Hev. specialize (H ev Hev).
    now destruct ev. }
  induction lines as [|line rest IH]; [reflexivity|].
  rewrite read_lines_cons.
  destruct (snd (echo_line w line)) as [[]|e|]; cbn [fst forallb in_loop];
    rewrite ?forallb_app, ?Hecho, ?IH; reflexivity.
Qed.

(** The lines the loop has read are an initial part of the output, all of
    it when the loop returns. *)
Lemma read_lines_prefix (w : world) (lines : list string) :
  exists n, lines_read (fst (read_lines w lines)) = firstn n lines /\
            process_calls (fst (read_lines w lines)) = map StdoutLine (firstn n lines).
Proof.
  assert (Hecho : forall line,
            lines_read (fst (echo_line w line)) = [] /\
            process_calls (fst (echo_line w line)) = []).
  { intros line. rewrite echo_line_cases.
    destruct (print_answer w line); [now split|].
    destruct (is_netlify_url line); [|now split].
    now destruct (print_answer w (found_url line ++ nl)). }
  induction lines as [|line rest (n & IH1 & IH2)]; [now exists 0%nat|].
  rewrite read_lines_cons. destruct (Hecho line) as [H1 H2].
  destruct (snd (echo_line w line)) as [[]|e|]; cbn [fst].
  - exists (S n). unfold process_calls in *. cbn [lines_read filter on_process firstn map].
    rewrite lines_read_app, filter_app, H1, H2, IH1, IH2. now split.
  - exists 1%nat. unfold process_calls in *. cbn [lines_read filter on_process firstn map].
    rewrite H1, H2. now split.
  - exists 1%nat. unfold process_calls in *. cbn [lines_read filter on_process firstn map].
    rewrite H1, H2. now split.
Qed.

Lemma loop_log_quiet (w : world) :
  stdin_writes (loop_log w) = [] /\ filter is_control (loop_log w) = [] /\
  filter is_spawn (loop_log w) = [] /\
  (forall rc, ~ In (Waited rc) (loop_log w)) /\
  (forall ev, In ev (loop_log w) -> exists text, ev = StdoutLine text \/ ev = Print text).
Proof. apply in_loop_quiet, read_lines_in_loop. Qed.

(** Every run, by the first call that does not return. *)
Lemma deploy_shape (w : world) :
  deploy_to_netlify w =
  match os_chdir w frontend_dir with
  | Some e => ([hello], Raises e)
  | None =>
  match popen w netlify_call with
  | Some e => ([hello; Chdir frontend_dir; error_report e], Returns false)
  | None =>
  match stdin_write w 0 nl with
  | Some e => (firstn 3 sent ++ [error_report e], Returns false)
  | None =>
  match stdin_flush w 0 with
  | Some e => (firstn 4 sent ++ [error_report e], Returns false)
  | None =>
  match stdin_write w 1 nl with
  | Some e => (firstn 5 sent ++ [error_report e], Returns false)
  | None =>
  match stdin_flush w 1 with
  | Some e => (firstn 6 sent ++ [error_report e], Returns false)
  | None =>
  match snd (read_lines w (stdout_lines w)) with
  | Raises e => (sent ++ loop_log w ++ [error_report e], Returns false)
  | Blocks => (sent ++ loop_log w, Blocks)
  | Returns _ =>
  match stdout_error w with
  | Some e => (sent ++ loop_log w ++ [error_report e], Returns false)
  | None =>
  if stdout_hangs w then (sent ++ loop_log w, Blocks) else
  match child_exit w with
  | Some rc => (sent ++ loop_log w ++ [Waited rc], Returns (rc =? 0)%Z)
  | None => (sent ++ loop_log w, Blocks)
  end end end end end end end end end%list.
Proof.
  unfold deploy_to_netlify, try_body, read_output, process_wait, loop_log.
  unfold inputs, send_inputs.
  change ("" ++ nl) with nl.
  destruct (os_chdir w frontend_dir); [reflexivity|].
  destruct (popen w netlify_call); [reflexivity|].
  destruct (stdin_write w 0 nl); [reflexivity|].
  destruct (stdin_flush w 0); [reflexivity|].
  destruct (stdin_write w 1 nl); [reflexivity|].
  destruct (stdin_flush w 1); [reflexivity|].
  destruct (read_lines w (stdout_lines w)) as [t [[]|e|]]; cbn [fst snd];
    [| reflexivity | cbn; now rewrite ?app_nil_r].
  destruct (stdout_error w); [|destruct (stdout_hangs w); [|destruct (child_exit w)]];
    cbn; rewrite ?app_nil_r; reflexivity.
Qed.

Lemma trace_deploy (w : world) : trace w = fst (deploy_to_netlify w).
Proof.
  unfold trace, main. now destruct (deploy_to_netlify w) as [t [b|e|]].
Qed.

Lemma ending_result (w : world) :
  ending w =
  match result w with
  | Returns success => Exit (if success then 0 else 1)%Z
  | Raises e => Traceback e
  | Blocks => Hangs
  end.
Proof.
  unfold ending, result, main. now destruct (deploy_to_netlify w) as [t [b|e|]].
Qed.

(** Rewrites a goal about the run of [w] into one case per shape of the run:
    the six calls before the loop, then, the loop having returned, the
    stream raising, the stream blocking, the child exiting with [rc], the
    child never exiting, and last the loop stopped by a refused print.  The
    exception of a case is [e]. *)
Ltac by_shape w :=
  let e := fresh "e" in
  let rc := fresh "rc" in
  let Hloop := fresh "Hloop" in
  rewrite ?trace_deploy, ?ending_result; unfold result;
  rewrite ?(deploy_shape w);
  destruct (os_chdir w frontend_dir) as [e|] eqn:?;
  [| destruct (popen w netlify_call) as [e|] eqn:?;
     [| destruct (stdin_write w 0 nl) as [e|] eqn:?;
        [| destruct (stdin_flush w 0) as [e|] eqn:?;
           [| destruct (stdin_write w 1 nl) as [e|] eqn:?;
              [| destruct (stdin_flush w 1) as [e|] eqn:?;
                 [| destruct (snd (read_lines w (stdout_lines w))) as [[]|e|] eqn:Hloop;
                    [ destruct (stdout_error w) as [e|] eqn:?;
                      [| destruct (stdout_hangs w) eqn:?;
                         [| destruct (child_exit w) as [rc|] eqn:? ]]
                    |
                    | exfalso; exact (read_lines_never_blocks _ _ Hloop) ]]]]]]];
  cbn [fst snd].

(** The child is spawned exactly when [chdir] and [Popen] return. *)
Lemma spawned_iff (w : world) :
  spawned (trace w) <-> os_chdir w frontend_dir = None /\ popen w netlify_call = None.
Proof.
  unfold spawned. split.
  - by_shape w; intros H; try (split; reflexivity);
      simpl in H; intuition discriminate.
  - intros [Hc Hp]. revert Hc Hp.
    by_shape w; intros Hc Hp; try discriminate; simpl; auto.
Qed.

Lemma writes_ok_inv (w : world) :
  writes_ok w ->
  stdin_write w 0 nl = None /\ stdin_flush w 0 = None /\
  stdin_write w 1 nl = None /\ stdin_flush w 1 = None.
Proof.
  intros H. destruct (H 0%nat) as [? ?]; [lia|]. destruct (H 1%nat) as [? ?]; [lia|].
  auto.
Qed.

Lemma writes_ok_intro (w : world) :
  stdin_write w 0 nl = None -> stdin_flush w 0 = None ->
  stdin_write w 1 nl = None -> stdin_flush w 1 = None ->
  writes_ok w.
Proof.
  intros H0 H1 H2 H3 k Hk.
  destruct k as [|[|k]]; [now split | now split | lia].
Qed.

Lemma write_raises_not_ok (w : world) : write_raises w -> ~ writes_ok w.
Proof.
  intros (k & Hk & Hor) Hw. destruct (Hw k Hk) as [Ha Hb].
  destruct Hor as [H | H]; now apply H.
Qed.

(** A run that gets through spawning and sending, from the loop on. *)
Lemma deploy_after_sending (w : world) :
  spawned (trace w) -> writes_ok w ->
  deploy_to_netlify w =
  match snd (read_lines w (stdout_lines w)) with
  | Raises e => (sent ++ loop_log w ++ [error_report e], Returns false)
  | Blocks => (sent ++ loop_log w, Blocks)
  | Returns _ =>
  match stdout_error w with
  | Some e => (sent ++ loop_log w ++ [error_report e], Returns false)
  | None =>
  if stdout_hangs w then (sent ++ loop_log w, Blocks) else
  match child_exit w with
  | Some rc => (sent ++ loop_log w ++ [Waited rc], Returns (rc =? 0)%Z)
  | None => (sent ++ loop_log w, Blocks)
  end end end%list.
Proof.
  intros Hs Hw. apply spawned_iff in Hs. destruct Hs as [Hc Hp].
  destruct (writes_ok_inv w Hw) as (H0 & H1 & H2 & H3).
  now rewrite deploy_shape, Hc, Hp, H0, H1, H2, H3.
Qed.

(** A run in which nothing raises and the output ends. *)
Lemma deploy_quiet (w : world) :
  spawned (trace w) -> writes_ok w -> echo_ok w (stdout_lines w) -> output_ends w ->
  deploy_to_netlify w =
  match child_exit w with
  | Some rc => (sent ++ lines_log (stdout_lines w) ++ [Waited rc], Returns (rc =? 0)%Z)
  | None => (sent ++ lines_log (stdout_lines w), Blocks)
  end%list.
Proof.
  intros Hs Hw He [Ho Hh]. rewrite (deploy_after_sending w Hs Hw).
  unfold loop_log. now rewrite (read_lines_ok w _ He), Ho, Hh.
Qed.

(** ** Exit codes and exceptions *)






(** C8: if changing to the frontend directory fails, the exception is not
    caught by the trigger: nothing but the greeting is printed, in
    particular no "Error:" message, and the program ends by the uncaught
    exception, not by an exit code chosen from the boolean result. *)
Theorem chdir_failure_escapes (w : world) (e : exn) :
  os_chdir w frontend_dir = Some e ->
  main w = ([hello], Traceback e) /\
  existsb is_error_report (trace w) = false /\
  result w = Raises e /\
  (forall code, ending w <> Exit code).
Proof.
  intros Hc.
  assert (Hm : main w = ([hello], Traceback e)).
  { unfold main. now rewrite deploy_shape, Hc. }
  unfold trace, ending, result. rewrite Hm, deploy_shape, Hc.
  repeat split. intros code H. discriminate H.
Qed.

Lemma chdir_failure_escapes_witness :
  main no_directory = ([hello], Traceback not_found) /\
  existsb is_error_report (trace no_directory) = false.
Proof.
  destruct (chdir_failure_escapes no_directory not_found eq_refl) as (H1 & H2 & _).
  exact (conj H1 H2).
Defined.

(** C9: if an exception is raised after the child is spawned, while the
    inputs are written or the output is read, the trigger returns failure
    and the program exits with code 1, whatever the child's exit code is
    or would be; the child is not waited for.  The handler's path never
    reports success. *)
Theorem exception_after_spawn_is_failure (w : world) :
  spawned (trace w) ->
  write_raises w \/ stdout_error w <> None ->
  result w = Returns false /\
  ending w = Exit 1 /\
  (exists e, In (error_report e) (trace w)) /\
  (forall rc, ~ In (Waited rc) (trace w)) /\
  (forall e, snd (try_body w) = Raises e ->
             snd (try_except (try_body w) except_handler) = Returns false).
Proof.
  intros Hs Hex.
  assert (Hlast : forall e, snd (try_body w) = Raises e ->
                    snd (try_except (try_body w) except_handler) = Returns false).
  { intros e H. destruct (try_body w) as [t o]. simpl in H. subst o. reflexivity. }
  apply spawned_iff in Hs. destruct Hs as [Hc Hp].
  destruct (loop_log_quiet w) as (_ & _ & _ & Hnw & _).
  assert (Hloop : forall e rc, ~ In (Waited rc) (sent ++ loop_log w ++ [error_report e])).
  { intros e rc H. rewrite !in_app_iff in H. simpl in H.
    destruct H as [H | [H | [H | []]]]; try discriminate.
    - intuition discriminate.
    - now apply (Hnw rc). }
  assert (Hbad : writes_ok w -> stdout_error w = None -> False).
  { intros Hw He. destruct Hex as [H | H]; [|now apply H].
    now apply write_raises_not_ok in H. }
  revert Hc Hp Hbad.
  by_shape w; intros Hc Hp Hbad; try discriminate Hc; try discriminate Hp;
    try (exfalso; apply Hbad; [now apply writes_ok_intro | reflexivity]).
  1-4: repeat split; auto;
    [ eexists; rewrite in_app_iff; right; left; reflexivity
    | intros rc H; simpl in H; intuition discriminate ].
  - repeat split; auto.
    eexists. rewrite !in_app_iff. right. right. left. reflexivity.
  - repeat split; auto.
    eexists. rewrite !in_app_iff. right. right. left. reflexivity.
Qed.

Lemma exception_after_spawn_is_failure_witness :
  child_exit closed_stdin = Some 0%Z /\
  spawned (trace closed_stdin) /\
  write_raises closed_stdin /\
  result closed_stdin = Returns false /\
  ending closed_stdin = Exit 1.
Proof.
  assert (Hs : spawned (trace closed_stdin)).
  { unfold spawned. vm_compute. auto. }
  assert (Hw : write_raises closed_stdin).
  { exists 0%nat. split; [lia|]. left. simpl. discriminate. }
  destruct (exception_after_spawn_is_failure closed_stdin Hs (or_introl Hw))
    as (H1 & H2 & _).
  repeat split; assumption.
Defined.

(** ** The inputs *)

(** C3, as stated, fails: here the child is spawned but has closed its
    stdin, the first write raises, and nothing is written. *)
Lemma two_inputs_counterexample :
  spawned (trace closed_stdin) /\
  stdin_writes (trace closed_stdin) = [] /\
  stdin_writes (trace closed_stdin) <> [nl; nl].
Proof.
  split; [|split].
  - unfold spawned. vm_compute. auto.
  - reflexivity.
  - discriminate.
Qed.

(** C3 (amended): in every run in which the child is spawned, what is
    written to its stdin is a prefix of two blank lines (an empty string
    followed by a newline, twice); and when no write or flush of an input
    raises, exactly the two blank lines are written, in order, regardless
    of what the child writes to its output. *)
Theorem two_blank_inputs (w : world) :
  spawned (trace w) ->
  (exists n, stdin_writes (trace w) = firstn n ["" ++ nl; "" ++ nl]) /\
  (writes_ok w ->
   forall lines, stdin_writes (trace (with_lines w lines)) = ["" ++ nl; "" ++ nl]).
Proof.
  intros Hs.
  assert (Hafter : forall w', spawned (trace w') -> writes_ok w' ->
            stdin_writes (trace w') = [nl; nl]).
  { intros w' Hs' Hw'. rewrite trace_deploy, (deploy_after_sending _ Hs' Hw').
    destruct (loop_log_quiet w') as (Hq & _).
    destruct (snd (read_lines w' (stdout_lines w'))) as [[]|e|];
      [destruct (stdout_error w');
         [|destruct (stdout_hangs w'); [|destruct (child_exit w')]] | |];
      cbn [fst]; rewrite !stdin_writes_app, Hq; reflexivity. }
  split.
  - destruct (loop_log_quiet w) as (Hq & _). clear Hs.
    by_shape w; rewrite ?stdin_writes_app, ?Hq; simpl.
    1-3: now exists 0%nat.
    1-2: now exists 1%nat.
    all: now exists 2%nat.
  - intros Hw lines. apply Hafter.
    + apply spawned_iff. apply spawned_iff in Hs. exact Hs.
    + exact Hw.
Qed.

Lemma two_blank_inputs_witness :
  spawned (trace (calm [] 0)) /\
  writes_ok (calm [] 0) /\
  stdin_writes (trace (with_lines (calm [] 0) sample_output)) = [nl; nl].
Proof.
  assert (Hs : spawned (trace (calm [] 0))).
  { unfold spawned. vm_compute. auto. }
  assert (Hw : writes_ok (calm [] 0)).
  { intros k _. split; reflexivity. }
  split; [exact Hs | split; [exact Hw|]].
  exact (proj2 (two_blank_inputs (calm [] 0) Hs) Hw sample_output).
Defined.

(** ** Detecting the URL *)

(** The test of line 44 is the specification's match. *)
Lemma is_netlify_url_spec (line : string) :
  is_netlify_url line = true <->
  contains_ignoring_case "https://" line /\ contains_ignoring_case "netlify" line.
Proof.
  unfold is_netlify_url. rewrite andb_true_iff.
  now rewrite !contains_lower_spec by reflexivity.
Qed.

(** A run that gets to the loop: its log is the sending, the log of the
    loop, and at most one more thing, the error report or the wait. *)
Lemma trace_after_sending (w : world) :
  spawned (trace w) -> writes_ok w ->
  exists rest,
    trace w = (sent ++ loop_log w ++ rest)%list /\
    lines_read rest = [] /\ (List.length (filter is_print rest) <= 1)%nat.
Proof.
  intros Hs Hw. rewrite trace_deploy, (deploy_after_sending w Hs Hw).
  destruct (snd (read_lines w (stdout_lines w))) as [[]|e|];
    [destruct (stdout_error w) as [e|];
       [|destruct (stdout_hangs w); [|destruct (child_exit w) as [rc|]]] | |];
    cbn [fst].
  - exists [error_report e]. repeat split. simpl. lia.
  - exists []. rewrite app_nil_r. repeat split. simpl. lia.
  - exists [Waited rc]. repeat split. simpl. lia.
  - exists []. rewrite app_nil_r. repeat split. simpl. lia.
  - exists [error_report e]. repeat split. simpl. lia.
  - exists []. rewrite app_nil_r. repeat split. simpl. lia.
Qed.

(** The loop at a line it gets to: the read, what the body logs, the rest. *)
Lemma read_lines_at (w : world) (before after : list string) (line : string) :
  echo_ok w before ->
  exists rest,
    fst (read_lines w (before ++ line :: after)) =
    (lines_log before ++ StdoutLine line :: fst (echo_line w line) ++ rest)%list.
Proof.
  intros Hb. rewrite (read_lines_app w before _ Hb), read_lines_cons. cbn [fst].
  destruct (snd (echo_line w line)) as [[]|e|]; cbn [fst].
  - now exists (fst (read_lines w after)).
  - exists []. now rewrite app_nil_r.
  - exists []. now rewrite app_nil_r.
Qed.

(** When the body of the loop prints the confirmation of its line. *)
Lemma confirmation_in_echo (w : world) (line : string) :
  In (Print (found_url line ++ nl)) (fst (echo_line w line)) <->
  is_netlify_url line = true /\ line_prints w line.
Proof.
  assert (Hfresh : ~ In (Print (found_url line ++ nl)) [Print line]).
  { intros [H | []]. injection H as H. symmetry in H. now apply found_url_fresh in H. }
  split.
  - rewrite echo_line_cases. unfold line_prints.
    destruct (print_answer w line); [intros []|].
    destruct (is_netlify_url line); [|intros H; now apply Hfresh in H].
    destruct (print_answer w (found_url line ++ nl));
      [intros H; now apply Hfresh in H | now repeat split].
  - intros [Hurl Hp]. rewrite (echo_line_ok w line Hp), Hurl. simpl. auto.
Qed.

(** C4, as stated, fails: this line contains both markers and is read and
    echoed, but the console refuses the check mark; the print of the
    confirmation raises and the run ends with the error report, without a
    confirmation. *)
Lemma confirmation_counterexample :
  contains_ignoring_case "https://" https_line /\
  contains_ignoring_case "netlify" https_line /\
  trace (legacy_console [https_line] 0) =
    (sent ++ [StdoutLine https_line; Print https_line; error_report cannot_encode])%list /\
  ~ In (Print (found_url https_line ++ nl)) (trace (legacy_console [https_line] 0)).
Proof.
  split; [|split; [|split]].
  - apply contains_lower_spec; reflexivity.
  - apply contains_lower_spec; reflexivity.
  - reflexivity.
  - intros H. vm_compute in H. intuition discriminate.
Qed.

(** C4 (amended): for every line of the child's combined output that a run
    gets to, the run reads the line and then does what the body of the loop
    does for it; in that, a confirmation quoting the line is printed if and
    only if the line contains both "https://" and "netlify", matched
    case-insensitively, and the console takes the echo and the
    confirmation; for a line without both markers, and so for a line with
    neither, no confirmation is printed. *)
Theorem confirmation_iff_match
    (w : world) (before after : list string) (line : string) :
  spawned (trace w) -> writes_ok w ->
  stdout_lines w = (before ++ line :: after)%list ->
  echo_ok w before ->
  (exists rest,
     trace w =
       (sent ++ lines_log before ++ StdoutLine line :: fst (echo_line w line) ++ rest)%list) /\
  (In (Print (found_url line ++ nl)) (fst (echo_line w line)) <->
   contains_ignoring_case "https://" line /\ contains_ignoring_case "netlify" line /\
   line_prints w line) /\
  (~ (contains_ignoring_case "https://" line /\ contains_ignoring_case "netlify" line) ->
   ~ In (Print (found_url line ++ nl)) (fst (echo_line w line))).
Proof.
  intros Hs Hw Hl Hb. split; [|split].
  - destruct (trace_after_sending w Hs Hw) as (rest & Ht & _).
    destruct (read_lines_at w before after line Hb) as (rest' & Hr).
    exists (rest' ++ rest)%list. rewrite Ht. unfold loop_log. rewrite Hl, Hr.
    rewrite <- !app_assoc. cbn [app]. now rewrite <- !app_assoc.
  - rewrite confirmation_in_echo, is_netlify_url_spec. tauto.
  - rewrite confirmation_in_echo, is_netlify_url_spec. tauto.
Qed.

Lemma confirmation_iff_match_witness :
  In (Print (found_url https_line ++ nl)) (fst (echo_line (calm [http_line; https_line] 0) https_line)).
Proof.
  assert (Hs : spawned (trace (calm [http_line; https_line] 0))).
  { apply spawned_iff. split; reflexivity. }
  assert (Hw : writes_ok (calm [http_line; https_line] 0)).
  { intros k _. split; reflexivity. }
  assert (Hb : echo_ok (calm [http_line; https_line] 0) [http_line]).
  { repeat constructor; intros _; reflexivity. }
  apply (proj1 (proj2 (confirmation_iff_match (calm [http_line; https_line] 0)
                         [http_line] [] https_line Hs Hw eq_refl Hb))).
  split; [|split].
  - apply contains_lower_spec; reflexivity.
  - apply contains_lower_spec; reflexivity.
  - split; [reflexivity | intros _; reflexivity].
Defined.




(** ** The order of the calls *)

Lemma loop_returns_log (w : world) :
  snd (read_lines w (stdout_lines w)) = Returns tt ->
  loop_log w = lines_log (stdout_lines w).
Proof.
  intros H. apply read_lines_returns in H.
  unfold loop_log. now rewrite (read_lines_ok w _ H).
Qed.

Lemma firstn_into_app {A : Type} (l tail : list A) (m : nat) :
  exists m', firstn m l = firstn m' (l ++ tail).
Proof.
  revert m; induction l as [|a l IH]; intros m.
  - exists 0%nat. now destruct m.
  - destruct m as [|m]; [now exists 0%nat|].
    destruct (IH m) as (m' & H). exists (S m'). simpl. now rewrite H.
Qed.

(** The calls the loop makes on the child: reads of an initial part of the
    output. *)
Lemma loop_calls (w : world) (tail : list event) :
  exists m, process_calls (loop_log w) =
            firstn m (map StdoutLine (stdout_lines w) ++ tail).
Proof.
  destruct (read_lines_prefix w (stdout_lines w)) as (n & _ & H).
  destruct (firstn_into_app (map StdoutLine (stdout_lines w)) tail n) as (m & Hm).
  exists m. unfold loop_log. now rewrite H, <- Hm, firstn_map.
Qed.

Lemma firstn_reads (lines : list string) (tail : list event) :
  firstn (List.length lines) (map StdoutLine lines ++ tail) = map StdoutLine lines.
Proof.
  induction lines as [|line rest IH]; simpl; [reflexivity | now rewrite IH].
Qed.

Lemma firstn_reads_and_one (lines : list string) (ev : event) :
  firstn (S (List.length lines)) (map StdoutLine lines ++ [ev]) =
  (map StdoutLine lines ++ [ev])%list.
Proof.
  induction lines as [|line rest IH]; [reflexivity|].
  cbn [List.length map app]. rewrite firstn_cons. now rewrite IH.
Qed.

(** The exit code is observed only in the run that gets to the end. *)
Lemma waited_shape (w : world) (rc : Z) :
  In (Waited rc) (trace w) ->
  deploy_to_netlify w =
    ((sent ++ lines_log (stdout_lines w) ++ [Waited rc])%list, Returns (rc =? 0)%Z) /\
  child_exit w = Some rc.
Proof.
  destruct (loop_log_quiet w) as (_ & _ & _ & Hnw & _).
  by_shape w; intros H;
    try (simpl in H; intuition discriminate);
    rewrite ?in_app_iff in H.
  - destruct H as [H | [H | H]];
      [simpl in H; intuition discriminate | now apply Hnw in H
      | simpl in H; intuition discriminate].
  - destruct H as [H | H];
      [simpl in H; intuition discriminate | now apply Hnw in H].
  - destruct H as [H | [H | H]];
      [simpl in H; intuition discriminate | now apply Hnw in H |].
    simpl in H. destruct H as [H | []]. injection H as ->.
    now rewrite (loop_returns_log w Hloop).
  - destruct H as [H | H];
      [simpl in H; intuition discriminate | now apply Hnw in H].
  - destruct H as [H | [H | H]];
      [simpl in H; intuition discriminate | now apply Hnw in H
      | simpl in H; intuition discriminate].
Qed.

Lemma stdin_writes_firstn (n : nat) (t : list event) :
  stdin_writes t = [] -> stdin_writes (firstn n t) = [].
Proof.
  revert n; induction t as [|ev t IH]; intros [|n] H; try reflexivity.
  destruct ev; simpl in *; try discriminate; now apply IH.
Qed.

(** What has happened before the call at position [n] of a run. *)
Lemma order_at (w : world) (n : nat) (ev : event) :
  nth_error (trace w) n = Some ev ->
  match ev with
  | StdinWrite _ => spawned (firstn n (trace w))
  | StdoutLine _ =>
      spawned (firstn n (trace w)) /\ stdin_writes (firstn n (trace w)) = [nl; nl]
  | _ => True
  end.
Proof.
  unfold spawned.
  destruct (loop_log_quiet w) as (Hq & _).
  assert (Hrest : forall m tail, stdin_writes tail = [] ->
            stdin_writes (firstn m (loop_log w ++ tail)) = []).
  { intros m tail Ht. apply stdin_writes_firstn.
    now rewrite stdin_writes_app, Hq. }
  by_shape w; intros H;
    repeat (destruct n as [|n]; simpl in H;
            [injection H as <-; simpl; solve [auto 8] |]);
    try (destruct n; discriminate H).
  all: destruct ev; try exact I; simpl; rewrite ?app_nil_r in *;
    rewrite ?(Hrest n [error_report e] eq_refl), ?(Hrest n [Waited rc] eq_refl);
    try (rewrite <- (app_nil_r (loop_log w)), (Hrest n [] eq_refl));
    auto 8.
Qed.

(** C7: every run follows the one linear order: the calls made on the
    child are an initial part of spawn, two writes with their flushes, the
    reads of the output lines, the wait; the whole of it in the run that
    waits, and only that run maps the exit code to the result.  In
    particular the child is spawned before its stdin is written and before
    its stdout is read, and both inputs are written before any line of
    output is read. *)
Theorem linear_sequence (w : world) :
  (exists n, process_calls (trace w) = firstn n (linear_order w)) /\
  (forall rc, In (Waited rc) (trace w) ->
     process_calls (trace w) = linear_order w /\ result w = Returns (rc =? 0)%Z) /\
  (forall success, result w = Returns success ->
     (exists rc, In (Waited rc) (trace w) /\ success = (rc =? 0)%Z) \/
     (success = false /\ exists e, In (error_report e) (trace w))) /\
  (forall t1 ev t2, trace w = (t1 ++ ev :: t2)%list ->
     (forall data, ev = StdinWrite data -> spawned t1) /\
     (forall line, ev = StdoutLine line ->
        spawned t1 /\ stdin_writes t1 = [nl; nl])).
Proof.
  split; [|split; [|split]].
  - unfold linear_order, process_calls.
    by_shape w; rewrite ?filter_app;
      fold (process_calls (loop_log w));
      try rewrite (loop_returns_log w Hloop), process_calls_lines_log.
    + now exists 0%nat.
    + now exists 0%nat.
    + now exists 1%nat.
    + now exists 2%nat.
    + now exists 3%nat.
    + now exists 4%nat.
    + exists (5 + List.length (stdout_lines w))%nat.
      simpl. do 5 f_equal. now rewrite app_nil_r, firstn_reads.
    + exists (5 + List.length (stdout_lines w))%nat.
      simpl. do 5 f_equal. now rewrite firstn_reads.
    + exists (6 + List.length (stdout_lines w))%nat.
      simpl. do 5 f_equal. symmetry. apply firstn_reads_and_one.
    + exists (5 + List.length (stdout_lines w))%nat.
      simpl. do 5 f_equal. now rewrite firstn_reads.
    + destruct (loop_calls w
                  match child_exit w with Some rc => [Waited rc] | None => [] end)
        as (m & Hm).
      exists (5 + m)%nat. simpl. do 5 f_equal. now rewrite app_nil_r.
  - intros rc H. destruct (waited_shape w rc H) as [Hd Hc].
    unfold result. rewrite trace_deploy, Hd. cbn [fst snd]. split; [|reflexivity].
    unfold linear_order, process_calls.
    now rewrite Hc, !filter_app, process_calls_lines_log.
  - intros success. by_shape w; intros H; try discriminate H; injection H as <-.
    1-5: right; split; [reflexivity|]; eexists; rewrite ?in_app_iff; simpl; auto 8.
    + right. split; [reflexivity|]. exists e. rewrite !in_app_iff. simpl. auto.
    + left. exists rc. split; [|reflexivity]. rewrite !in_app_iff. simpl. auto.
    + right. split; [reflexivity|]. exists e. rewrite !in_app_iff. simpl. auto.
  - intros t1 ev t2 Ht.
    assert (Hn : nth_error (trace w) (List.length t1) = Some ev).
    { rewrite Ht, nth_error_app2, Nat.sub_diag by lia. reflexivity. }
    assert (Hf : firstn (List.length t1) (trace w) = t1).
    { rewrite Ht, firstn_app, firstn_all, Nat.sub_diag. simpl. apply app_nil_r. }
    pose proof (order_at w _ _ Hn) as H. rewrite Hf in H.
    split.
    + intros data ->. exact H.
    + intros line ->. exact H.
Qed.

Lemma linear_sequence_witness :
  In (Waited 0) (trace (calm sample_output 0)) /\
  process_calls (trace (calm sample_output 0)) = linear_order (calm sample_output 0) /\
  result (calm sample_output 0) = Returns true.
Proof.
  assert (Hin : In (Waited 0) (trace (calm sample_output 0))).
  { vm_compute. auto 20. }
  split; [exact Hin|].
  exact (proj1 (proj2 (linear_sequence (calm sample_output 0))) 0%Z Hin).
Defined.

(** ** The output decides nothing, while the console takes it *)

(** C6, as stated, fails: the two runs differ only in the line the child
    prints, and the child exits with code 0 in both; the console refuses
    the check mark, so the run whose line matches stops at the confirmation
    and returns failure, while the other returns success. *)
Lemma url_branch_counterexample :
  child_exit (with_lines (legacy_console [] 0) [https_line]) = Some 0%Z /\
  child_exit (with_lines (legacy_console [] 0) [http_line]) = Some 0%Z /\
  result (with_lines (legacy_console [] 0) [https_line]) = Returns false /\
  result (with_lines (legacy_console [] 0) [http_line]) = Returns true.
Proof. repeat split. Qed.

(** C6 (amended): while the console takes what the loop prints, the URL
    test has no effect on control flow or on the result.  Two runs in which
    the child is spawned and exits with the same return code, nothing
    raises and the output ends, give the same result, whatever their output
    lines; and changing only the lines of the child's output, among lines
    the console takes, changes neither the result, nor the way the program
    ends, nor the calls made other than the reads and prints. *)
Theorem url_branch_is_inert :
  (forall w1 w2 rc,
     spawned (trace w1) -> spawned (trace w2) ->
     child_exit w1 = Some rc -> child_exit w2 = Some rc ->
     quiet w1 -> quiet w2 ->
     result w1 = result w2) /\
  (forall w lines1 lines2,
     echo_ok w lines1 -> echo_ok w lines2 ->
     result (with_lines w lines1) = result (with_lines w lines2) /\
     ending (with_lines w lines1) = ending (with_lines w lines2) /\
     filter is_control (trace (with_lines w lines1)) =
     filter is_control (trace (with_lines w lines2))).
Proof.
  split.
  - intros w1 w2 rc Hs1 Hs2 Hc1 Hc2 (Hw1 & He1 & Ho1) (Hw2 & He2 & Ho2).
    unfold result.
    now rewrite (deploy_quiet w1 Hs1 Hw1 He1 Ho1), (deploy_quiet w2 Hs2 Hw2 He2 Ho2),
      Hc1, Hc2.
  - intros w lines1 lines2 H1 H2.
    assert (E : forall l, echo_ok w l ->
                read_lines (with_lines w l) l = (lines_log l, Returns tt)).
    { intros l H. apply read_lines_ok. exact H. }
    rewrite !ending_result, !trace_deploy. unfold result.
    rewrite !deploy_shape. unfold loop_log.
    cbn [with_lines os_chdir popen stdin_write stdin_flush
         stdout_lines stdout_error child_exit stdout_hangs].
    rewrite (E _ H1), (E _ H2). cbn [fst snd].
    destruct (os_chdir w frontend_dir); [now repeat split|].
    destruct (popen w netlify_call); [now repeat split|].
    destruct (stdin_write w 0 nl); [now repeat split|].
    destruct (stdin_flush w 0); [now repeat split|].
    destruct (stdin_write w 1 nl); [now repeat split|].
    destruct (stdin_flush w 1); [now repeat split|].
    destruct (stdout_error w);
      [|destruct (stdout_hangs w); [|destruct (child_exit w)]];
      cbn [fst snd]; rewrite !filter_app, !control_lines_log; now repeat split.
Qed.

Lemma url_branch_is_inert_witness :
  result (calm sample_output 0) = result (calm [] 0).
Proof.
  assert (Hs : forall l, spawned (trace (calm l 0))).
  { intros l. apply spawned_iff. split; reflexivity. }
  assert (Hw : forall l, writes_ok (calm l 0)).
  { intros l k _. split; reflexivity. }
  apply (proj1 url_branch_is_inert _ _ 0%Z (Hs _) (Hs _) eq_refl eq_refl).
  - split; [apply Hw | split; [|split; reflexivity]].
    repeat constructor; intros _; reflexivity.
  - split; [apply Hw | split; [|split; reflexivity]]. constructor.
Defined.

(** ** Echo and confirmation *)





(** * Further properties of the script *)

(** ** How a run ends *)

(** X1: the program exits with code 0 exactly when every call returned and
    the child itself exited with code 0. *)
Theorem success_means_everything_worked (w : world) :
  ending w = Exit 0 <-> all_calls_return w /\ child_exit w = Some 0%Z.
Proof.
  unfold all_calls_return, output_ends. split.
  - by_shape w; intros H; try discriminate H.
    destruct (Z.eqb_spec rc 0) as [->|Hne]; [|discriminate H].
    assert (Hw : writes_ok w) by now apply writes_ok_intro.
    assert (He : echo_ok w (stdout_lines w)) by now apply read_lines_returns.
    intuition auto.
  - intros [(Hc & Hp & Hw & He & Ho) Hx].
    assert (Hs : spawned (trace w)) by now apply spawned_iff.
    rewrite ending_result. unfold result.
    now rewrite (deploy_quiet w Hs Hw He Ho), Hx.
Qed.

Lemma success_means_everything_worked_witness :
  all_calls_return (calm sample_output 0).
Proof.
  exact (proj1 (proj1 (success_means_everything_worked (calm sample_output 0))
                  eq_refl)).
Defined.

(** X3: there is no timeout: when no call raises but the child's output
    never ends, or it ends and the child never terminates, the program
    never ends.  By then all lines of the output have been read and echoed,
    and no error was printed. *)
Theorem hangs_on_endless_child (w : world) :
  spawned (trace w) -> writes_ok w -> echo_ok w (stdout_lines w) ->
  stdout_error w = None ->
  stdout_hangs w = true \/ child_exit w = None ->
  ending w = Hangs /\
  trace w = (sent ++ fst (read_lines w (stdout_lines w)))%list /\
  fst (read_lines w (stdout_lines w)) = lines_log (stdout_lines w).
Proof.
  intros Hs Hw He Ho Hor.
  assert (Hd : deploy_to_netlify w = ((sent ++ loop_log w)%list, Blocks)).
  { rewrite (deploy_after_sending w Hs Hw), Ho.
    rewrite (read_lines_ok w _ He). cbn [snd].
    destruct (stdout_hangs w); [reflexivity|].
    destruct Hor as [H | H]; [discriminate H | now rewrite H]. }
  rewrite ending_result, trace_deploy. unfold result. rewrite Hd.
  repeat split. now rewrite (read_lines_ok w _ He).
Qed.

Lemma hangs_on_endless_child_witness :
  ending (held_pipe sample_output 0) = Hangs /\ ending (sleeper sample_output) = Hangs.
Proof.
  assert (He : forall w, console w = (fun _ => None) -> echo_ok w sample_output).
  { intros w Hc. repeat constructor; intros _; unfold print_answer;
      rewrite Hc; now destruct (Str.isascii _). }
  split.
  - apply (hangs_on_endless_child (held_pipe sample_output 0)).
    + apply spawned_iff. split; reflexivity.
    + intros k _. split; reflexivity.
    + now apply He.
    + reflexivity.
    + left. reflexivity.
  - apply (hangs_on_endless_child (sleeper sample_output)).
    + apply spawned_iff. split; reflexivity.
    + intros k _. split; reflexivity.
    + now apply He.
    + reflexivity.
    + right. reflexivity.
Defined.

(** ** What a run never does *)

(** X5: every run starts by printing the greeting; there is no retry: the
    tool is spawned at most once, always with the one command line, and
    only right after the greeting and the change of directory. *)
Theorem one_spawn_after_chdir (w : world) :
  (exists t, trace w = hello :: t) /\
  (List.length (filter is_spawn (trace w)) <= 1)%nat /\
  (forall t1 c t2, trace w = (t1 ++ Spawn c :: t2)%list ->
     t1 = [hello; Chdir frontend_dir] /\ c = netlify_call).
Proof.
  destruct (loop_log_quiet w) as (_ & _ & Hq & _).
  split; [|split].
  - by_shape w; eexists; reflexivity.
  - by_shape w; rewrite ?filter_app, ?Hq; simpl; lia.
  - intros t1 c t2.
    assert (Hrest : forall t tail, filter is_spawn tail = [] ->
              (loop_log w ++ tail)%list = (t ++ Spawn c :: t2)%list ->
              False).
    { intros t tail Ht H. apply (f_equal (filter is_spawn)) in H.
      rewrite !filter_app, Hq, Ht in H. simpl in H.
      destruct (filter is_spawn t); discriminate H. }
    by_shape w; intros H;
      repeat (destruct t1 as [|? t1]; simpl in H;
              [try discriminate H; try (injection H as <- <-; now split)
              | injection H as <- H]);
      try (destruct t1; discriminate H).
    + exfalso. now apply (Hrest t1 [error_report e]).
    + exfalso. apply (Hrest t1 []); [reflexivity | now rewrite app_nil_r].
    + exfalso. now apply (Hrest t1 [Waited rc]).
    + exfalso. apply (Hrest t1 []); [reflexivity | now rewrite app_nil_r].
    + exfalso. now apply (Hrest t1 [error_report e]).
Qed.

Lemma one_spawn_after_chdir_witness :
  (firstn 2 sent = [hello; Chdir frontend_dir]) /\
  (List.length (filter is_spawn (trace (calm sample_output 0))) <= 1)%nat.
Proof.
  split.
  - exact (proj1 (proj2 (proj2 (one_spawn_after_chdir (calm sample_output 0)))
                   (firstn 2 sent) netlify_call
                   (skipn 3 (trace (calm sample_output 0))) eq_refl)).
  - exact (proj1 (proj2 (one_spawn_after_chdir (calm sample_output 0)))).
Defined.

(** X6: when a write or a flush of an input raises, nothing of the child's
    output is read or echoed, whatever the child printed: the console shows
    the greeting and one error message, and nothing else. *)
Theorem failed_write_hides_output (w : world) :
  spawned (trace w) -> write_raises w ->
  lines_read (trace w) = [] /\
  exists e, filter is_print (trace w) = [hello; error_report e].
Proof.
  intros Hs Hr. apply spawned_iff in Hs. destruct Hs as [Hc Hp].
  apply write_raises_not_ok in Hr. revert Hc Hp Hr.
  by_shape w; intros Hc Hp Hr; try discriminate Hc; try discriminate Hp;
    try (split; [reflexivity | now exists e]);
    exfalso; apply Hr; now apply writes_ok_intro.
Qed.

Lemma failed_write_hides_output_witness :
  stdout_lines late_flush = sample_output /\
  lines_read (trace late_flush) = [] /\
  exists e, filter is_print (trace late_flush) = [hello; error_report e].
Proof.
  split; [reflexivity|].
  apply (failed_write_hides_output late_flush).
  - unfold spawned. vm_compute. auto.
  - exists 1%nat. split; [lia|]. right. simpl. discriminate.
Defined.

(** The first line, if any, whose echo or confirmation the console refuses. *)
Lemma first_refused (w : world) (lines : list string) :
  ~ echo_ok w lines ->
  exists before line after,
    lines = (before ++ line :: after)%list /\ echo_ok w before /\ ~ line_prints w line.
Proof.
  assert (Hdec : forall line, line_prints w line \/ ~ line_prints w line).
  { intros line. unfold line_prints.
    destruct (print_answer w line); [right; intros [H _]; discriminate H|].
    destruct (is_netlify_url line); [|left; split; [reflexivity | discriminate]].
    destruct (print_answer w (found_url line ++ nl)).
    - right. intros [_ H]. specialize (H eq_refl). discriminate H.
    - left. now split. }
  induction lines as [|line rest IH]; intros H.
  - exfalso. apply H. constructor.
  - destruct (Hdec line) as [Hl | Hl].
    + destruct IH as (before & l & after & -> & Hb & Hn).
      { intros Hr. apply H. now constructor. }
      exists (line :: before), l, after. repeat split; [now constructor | exact Hn].
    + exists [], line, rest. repeat split; [constructor | exact Hl].
Qed.

Lemma echo_line_refused (w : world) (line : string) :
  ~ line_prints w line ->
  exists e, snd (echo_line w line) = Raises e /\ lines_read (fst (echo_line w line)) = [].
Proof.
  intros H. rewrite echo_line_cases. unfold line_prints in H.
  destruct (print_answer w line) as [e|]; [now exists e|].
  destruct (is_netlify_url line).
  - destruct (print_answer w (found_url line ++ nl)) as [e|]; [now exists e|].
    exfalso. apply H. now split.
  - exfalso. apply H. split; [reflexivity | discriminate].
Qed.

(** X12: when the console refuses the echo or the confirmation of a line,
    the print raises inside the [try]: the loop ends at that line, the
    lines after it are not read, the child is not waited for, the error is
    reported and the program exits with code 1, whatever the child's exit
    code. *)
Theorem refused_print_is_failure (w : world) :
  spawned (trace w) -> writes_ok w -> ~ echo_ok w (stdout_lines w) ->
  result w = Returns false /\
  ending w = Exit 1 /\
  (exists e, In (error_report e) (trace w)) /\
  (forall rc, ~ In (Waited rc) (trace w)) /\
  (exists before line after,
     stdout_lines w = (before ++ line :: after)%list /\
     echo_ok w before /\ ~ line_prints w line /\
     lines_read (trace w) = (before ++ [line])%list).
Proof.
  intros Hs Hw Hne.
  destruct (first_refused w _ Hne) as (before & line & after & Hl & Hb & Hn).
  destruct (echo_line_refused w line Hn) as (e & Hraise & Hread).
  assert (Hloop : read_lines w (stdout_lines w) =
            ((lines_log before ++ StdoutLine line :: fst (echo_line w line))%list,
             Raises e)).
  { rewrite Hl, (read_lines_app w before _ Hb), read_lines_cons, Hraise. reflexivity. }
  assert (Hd : deploy_to_netlify w =
            ((sent ++ loop_log w ++ [error_report e])%list, Returns false)).
  { rewrite (deploy_after_sending w Hs Hw). now rewrite Hloop. }
  destruct (loop_log_quiet w) as (_ & _ & _ & Hnw & _).
  rewrite ending_result, trace_deploy. unfold result. rewrite Hd. cbn [fst snd].
  split; [reflexivity | split; [reflexivity | split; [|split]]].
  - exists e. rewrite !in_app_iff. simpl. auto.
  - intros rc H. rewrite !in_app_iff in H. simpl in H.
    destruct H as [H | [H | [H | []]]]; try discriminate.
    + intuition discriminate.
    + now apply (Hnw rc).
  - exists before, line, after. repeat split; auto.
    unfold loop_log. rewrite Hloop. cbn [fst].
    rewrite !lines_read_app, lines_read_lines_log. cbn [lines_read].
    rewrite Hread. simpl. now rewrite app_nil_r.
Qed.

Lemma refused_print_is_failure_witness :
  child_exit (legacy_console [https_line; http_line] 0) = Some 0%Z /\
  ending (legacy_console [https_line; http_line] 0) = Exit 1.
Proof.
  split; [reflexivity|].
  apply (refused_print_is_failure (legacy_console [https_line; http_line] 0)).
  - apply spawned_iff. split; reflexivity.
  - intros k _. split; reflexivity.
  - intros H. inversion H as [|? ? [_ Hc] _]. specialize (Hc eq_refl).
    vm_compute in Hc. discriminate Hc.
Defined.

(** ** The input loop, for any list of inputs *)

Lemma send_inputs_cons (w : world) (k : nat) (inp : string) (rest : list string) :
  send_inputs w k (inp :: rest) =
  match stdin_write w k (inp ++ nl) with
  | Some e => ([], Raises e)
  | None =>
      match stdin_flush w k with
      | Some e => ([StdinWrite (inp ++ nl)], Raises e)
      | None =>
          (StdinWrite (inp ++ nl) :: StdinFlush :: fst (send_inputs w (S k) rest),
           snd (send_inputs w (S k) rest))
      end
  end.
Proof.
  cbn [send_inputs].
  destruct (stdin_write w k (inp ++ nl)); [reflexivity|].
  destruct (stdin_flush w k); [reflexivity|].
  now destruct (send_inputs w (S k) rest) as [t [[]|e|]].
Qed.

Lemma sends_ok_cons (w : world) (k : nat) (inp : string) (rest : list string) :
  sends_ok w k (inp :: rest) ->
  stdin_write w k (inp ++ nl) = None /\ stdin_flush w k = None /\
  sends_ok w (S k) rest.
Proof.
  intros H. destruct (H 0%nat inp eq_refl) as [Ha Hb].
  rewrite Nat.add_0_r in Ha, Hb.
  split; [exact Ha | split; [exact Hb|]].
  intros j x Hj. destruct (H (S j) x Hj) as [Hc Hd].
  rewrite Nat.add_succ_r in Hc, Hd. now split.
Qed.

(** X7: the loop over the inputs, for any list of inputs: when every write
    and flush returns it writes each input followed by a newline and
    flushes after each, in the order of the list; it returns normally only
    after having done all of that; and whatever happens, what it has
    written is an initial part of the inputs, each with its newline. *)
Theorem send_inputs_in_order (w : world) (k : nat) (inps : list string) :
  (sends_ok w k inps -> send_inputs w k inps = (sent_log inps, Returns tt)) /\
  (snd (send_inputs w k inps) = Returns tt ->
   fst (send_inputs w k inps) = sent_log inps) /\
  (exists n, stdin_writes (fst (send_inputs w k inps)) =
             firstn n (map (fun inp => inp ++ nl) inps)).
Proof.
  revert k; induction inps as [|inp rest IH]; intros k.
  - repeat split; try reflexivity. now exists 0%nat.
  - destruct (IH (S k)) as (IH1 & IH2 & (n & IH3)).
    rewrite send_inputs_cons. split; [|split].
    + intros Hok. apply sends_ok_cons in Hok. destruct Hok as (Ha & Hb & Hrest).
      rewrite Ha, Hb, (IH1 Hrest). reflexivity.
    + destruct (stdin_write w k (inp ++ nl)); [discriminate|].
      destruct (stdin_flush w k); [discriminate|].
      cbn [fst snd]. intros H. now rewrite (IH2 H).
    + destruct (stdin_write w k (inp ++ nl)); [now exists 0%nat|].
      destruct (stdin_flush w k); [now exists 1%nat|].
      exists (S n). cbn [fst]. simpl. now rewrite IH3.
Qed.

Lemma send_inputs_in_order_witness :
  send_inputs (calm [] 0) 0 ["y"; ""; "n"] =
  ([StdinWrite ("y" ++ nl); StdinFlush; StdinWrite nl; StdinFlush;
    StdinWrite ("n" ++ nl); StdinFlush], Returns tt).
Proof.
  apply (proj1 (send_inputs_in_order (calm [] 0) 0 ["y"; ""; "n"])).
  intros j inp _. split; reflexivity.
Defined.

(** ** The URL test and the quoted line *)

Lemma isspace_spec (c : ascii) :
  Str.isspace c = true <->
  (9 <= nat_of_ascii c <= 13 \/ 28 <= nat_of_ascii c <= 32)%nat.
Proof.
  unfold Str.isspace. cbv zeta.
  rewrite orb_true_iff, !andb_true_iff, !Nat.leb_le. tauto.
Qed.

Lemma isupper_not_space (c : ascii) : Str.isupper c = true -> Str.isspace c = false.
Proof.
  intros H. apply isupper_spec in H.
  apply not_true_is_false. rewrite isspace_spec. lia.
Qed.

Lemma isspace_to_lower (c : ascii) : Str.isspace (Str.to_lower c) = Str.isspace c.
Proof.
  destruct (Str.isupper c) eqn:E.
  - rewrite (isupper_not_space c E). apply not_true_is_false.
    rewrite isspace_spec, nat_of_to_lower, E. apply isupper_spec in E. lia.
  - unfold Str.to_lower. now rewrite E.
Qed.

Lemma to_lower_idem (c : ascii) : Str.to_lower (Str.to_lower c) = Str.to_lower c.
Proof.
  apply ascii_by_code. rewrite (nat_of_to_lower (Str.to_lower c)).
  destruct (Str.isupper (Str.to_lower c)) eqn:E; [|reflexivity].
  exfalso. apply isupper_spec in E. rewrite nat_of_to_lower in E.
  destruct (Str.isupper c) eqn:Ec.
  - apply isupper_spec in Ec. lia.
  - apply not_true_iff_false in Ec. apply Ec. now apply isupper_spec.
Qed.

Lemma lower_idem (s : string) : Str.lower (Str.lower s) = Str.lower s.
Proof.
  induction s as [|c s IH]; simpl; [reflexivity | now rewrite to_lower_idem, IH].
Qed.

Lemma all_space_lower (s : string) : all_space (Str.lower s) = all_space s.
Proof.
  induction s as [|c s IH]; simpl; [reflexivity | now rewrite isspace_to_lower, IH].
Qed.

Lemma same_ignoring_case_refl (s : string) : same_ignoring_case s s.
Proof. now apply lower_same_ignoring_case. Qed.

(** X8: the URL test does not look at the case of letters: two lines that
    differ only in the case of their letters are treated alike, and a line
    is treated like its lower-case form. *)
Theorem url_test_ignores_case :
  (forall line1 line2,
     same_ignoring_case line1 line2 -> is_netlify_url line1 = is_netlify_url line2) /\
  (forall line, is_netlify_url (Str.lower line) = is_netlify_url line).
Proof.
  split.
  - intros line1 line2 H. apply lower_same_ignoring_case in H.
    unfold is_netlify_url. now rewrite H.
  - intros line. unfold is_netlify_url. now rewrite lower_idem.
Qed.

Lemma url_test_ignores_case_witness :
  is_netlify_url "Live at HTTPS://Poker.Netlify.App" =
  is_netlify_url "live at https://poker.netlify.app".
Proof.
  apply (proj1 url_test_ignores_case).
  apply lower_same_ignoring_case. reflexivity.
Defined.

(** X9: the URL test looks for its two markers anywhere in the line and
    independently of each other: text before and after a matching line
    keeps it matching, and the markers may stand apart and in either order,
    so a line that names the provider and carries any https address is
    confirmed. *)
Theorem url_test_anywhere :
  (forall before line after,
     is_netlify_url line = true ->
     is_netlify_url (before ++ line ++ after) = true) /\
  (forall a b c,
     is_netlify_url (a ++ "netlify" ++ b ++ "https://" ++ c) = true /\
     is_netlify_url (a ++ "https://" ++ b ++ "netlify" ++ c) = true).
Proof.
  assert (Hin : forall pat a b, contains_ignoring_case pat (a ++ pat ++ b)).
  { intros pat a b. exists a, pat, b. split; [reflexivity|].
    apply same_ignoring_case_refl. }
  assert (Hctx : forall pat a s b,
            contains_ignoring_case pat s -> contains_ignoring_case pat (a ++ s ++ b)).
  { intros pat a s b (x & f & y & -> & Hf).
    exists (a ++ x), f, (y ++ b). split; [|exact Hf].
    now rewrite !append_assoc. }
  split.
  - intros before line after H. apply is_netlify_url_spec in H.
    apply is_netlify_url_spec. destruct H as [H1 H2]. split; now apply Hctx.
  - intros a b c. split; apply is_netlify_url_spec; split.
    + exists (a ++ "netlify" ++ b), "https://", c.
      split; [now rewrite !append_assoc | apply same_ignoring_case_refl].
    + apply Hin.
    + apply Hin.
    + exists (a ++ "https://" ++ b), "netlify", c.
      split; [now rewrite !append_assoc | apply same_ignoring_case_refl].
Qed.

Lemma url_test_anywhere_witness :
  is_netlify_url ("[12:00] " ++ "https://x.netlify.app" ++ " (live)") = true.
Proof.
  apply (proj1 url_test_anywhere). reflexivity.
Defined.

Section StripFacts.

Lemma lstrip_space_app (pre t : string) :
  all_space pre = true -> Str.lstrip (pre ++ t) = Str.lstrip t.
Proof.
  induction pre as [|c pre IH]; simpl; [reflexivity|].
  intros H. apply andb_true_iff in H. destruct H as [Hc Hp].
  rewrite Hc. now apply IH.
Qed.

Lemma rstrip_all_space (post : string) : all_space post = true -> Str.rstrip post = "".
Proof.
  induction post as [|c post IH]; simpl; [reflexivity|].
  intros H. apply andb_true_iff in H. destruct H as [Hc Hp].
  now rewrite (IH Hp), Hc.
Qed.

Lemma rstrip_app_space (t post : string) :
  all_space post = true -> Str.rstrip (t ++ post) = Str.rstrip t.
Proof.
  intros Hp. induction t as [|c t IH]; simpl.
  - now apply rstrip_all_space.
  - now rewrite IH.
Qed.

Lemma strip_padding (pre s post : string) :
  all_space pre = true -> all_space post = true ->
  Str.strip (pre ++ s ++ post) = Str.strip s.
Proof.
  intros Hpre Hpost. unfold Str.strip. rewrite (lstrip_space_app _ _ Hpre).
  induction s as [|c s IH]; simpl.
  - rewrite <- (append_nil_r post) at 1.
    rewrite (lstrip_space_app _ _ Hpost). reflexivity.
  - destruct (Str.isspace c); [exact IH|].
    change (String c (s ++ post)) with (String c s ++ post).
    now apply rstrip_app_space.
Qed.

Lemma lstrip_split (s : string) :
  exists pre, s = pre ++ Str.lstrip s /\ all_space pre = true.
Proof.
  induction s as [|c s (pre & IH & Hpre)]; simpl.
  - now exists "".
  - destruct (Str.isspace c) eqn:E.
    + exists (String c pre). simpl. rewrite E, Hpre. split; [now rewrite <- IH | reflexivity].
    + now exists "".
Qed.

Lemma rstrip_split (s : string) :
  exists post, s = Str.rstrip s ++ post /\ all_space post = true.
Proof.
  induction s as [|c s (post & IH & Hpost)]; simpl.
  - now exists "".
  - destruct (Str.rstrip s) as [|d r] eqn:E.
    + simpl in IH. subst s. destruct (Str.isspace c) eqn:Ec.
      * exists (String c post). simpl. now rewrite Ec, Hpost.
      * now exists post.
    + exists post. split; [|exact Hpost]. simpl. simpl in IH. now rewrite <- IH.
Qed.

Lemma strip_split (s : string) :
  exists pre post,
    s = pre ++ Str.strip s ++ post /\ all_space pre = true /\ all_space post = true.
Proof.
  destruct (lstrip_split s) as (pre & Hs & Hpre).
  destruct (rstrip_split (Str.lstrip s)) as (post & Hl & Hpost).
  exists pre, post. unfold Str.strip. now rewrite <- Hl, <- Hs.
Qed.

(** White space before the text cannot start a match of a pattern that
    starts with ink. *)
Lemma contains_space_app (p : ascii) (ps pre t : string) :
  Str.isspace p = false -> all_space pre = true ->
  Str.contains (String p ps) (pre ++ t) = Str.contains (String p ps) t.
Proof.
  intros Hp. induction pre as [|c pre IH]; [reflexivity|].
  intros H. simpl in H. apply andb_true_iff in H. destruct H as [Hc Hpre].
  change (String c pre ++ t) with (String c (pre ++ t)).
  cbn [Str.contains Str.startswith].
  assert (Hne : Ascii.eqb p c = false).
  { apply Ascii.eqb_neq. intros ->. congruence. }
  rewrite Hne. simpl. now apply IH.
Qed.

Lemma startswith_app_space (pat u post : string) :
  no_space pat = true -> all_space post = true ->
  Str.startswith pat (u ++ post) = Str.startswith pat u.
Proof.
  revert u; induction pat as [|p ps IH]; intros u Hpat Hpost; [reflexivity|].
  simpl in Hpat. apply andb_true_iff in Hpat. destruct Hpat as [Hp Hps].
  apply negb_true_iff in Hp.
  destruct u as [|c u]; simpl.
  - destruct post as [|d post]; [reflexivity|].
    simpl in Hpost. apply andb_true_iff in Hpost. destruct Hpost as [Hd _].
    assert (Hne : Ascii.eqb p d = false).
    { apply Ascii.eqb_neq. intros ->. congruence. }
    now rewrite Hne.
  - now rewrite IH.
Qed.

Lemma contains_app_space (p : ascii) (ps t post : string) :
  no_space (String p ps) = true -> all_space post = true ->
  Str.contains (String p ps) (t ++ post) = Str.contains (String p ps) t.
Proof.
  intros Hpat Hpost.
  assert (Hp : Str.isspace p = false).
  { simpl in Hpat. apply andb_true_iff in Hpat. now apply negb_true_iff. }
  induction t as [|c t IH].
  - rewrite <- (append_nil_r post) at 1.
    change ("" ++ post ++ "") with (post ++ "").
    now rewrite (contains_space_app p ps post "" Hp Hpost).
  - change (String c t ++ post) with (String c (t ++ post)).
    cbn [Str.contains]. rewrite IH.
    change (String c (t ++ post)) with (String c t ++ post).
    now rewrite (startswith_app_space _ _ _ Hpat Hpost).
Qed.

(** White space around a text neither makes nor breaks a match of a pattern
    that has no white space in it. *)
Lemma contains_padding (p : ascii) (ps pre s post : string) :
  no_space (String p ps) = true ->
  all_space pre = true -> all_space post = true ->
  Str.contains (String p ps) (pre ++ s ++ post) = Str.contains (String p ps) s.
Proof.
  intros Hpat Hpre Hpost.
  assert (Hp : Str.isspace p = false).
  { simpl in Hpat. apply andb_true_iff in Hpat. now apply negb_true_iff. }
  now rewrite (contains_space_app p ps pre _ Hp Hpre), contains_app_space.
Qed.

End StripFacts.

(** X10: white space put around a line, such as its line terminator or
    indentation, changes neither whether the line is confirmed nor the
    confirmation printed for it. *)
Theorem confirmation_quotes_trimmed_line :
  forall pre line post,
    all_space pre = true -> all_space post = true ->
    found_url (pre ++ line ++ post) = found_url line /\
    is_netlify_url (pre ++ line ++ post) = is_netlify_url line.
Proof.
  intros pre line post Hpre Hpost. split.
  - unfold found_url. now rewrite strip_padding.
  - unfold is_netlify_url. rewrite !lower_app.
    rewrite <- all_space_lower in Hpre, Hpost.
    now rewrite !contains_padding.
Qed.

Lemma confirmation_quotes_trimmed_line_witness :
  found_url ("  " ++ "https://x.netlify.app" ++ nl) = found_url "https://x.netlify.app".
Proof.
  apply (confirmation_quotes_trimmed_line "  " "https://x.netlify.app" nl); reflexivity.
Defined.

(** X11: trimming does not lose the address: the text quoted in a
    confirmation passes the URL test exactly when the line does, so every
    confirmation printed shows both markers. *)
Theorem quoted_text_still_matches (w : world) (line : string) :
  is_netlify_url (Str.strip line) = is_netlify_url line /\
  (In (Print (found_url line ++ nl)) (fst (echo_line w line)) ->
   contains_ignoring_case "https://" (Str.strip line) /\
   contains_ignoring_case "netlify" (Str.strip line)).
Proof.
  assert (H : is_netlify_url (Str.strip line) = is_netlify_url line).
  { destruct (strip_split line) as (pre & post & Hl & Hpre & Hpost).
    unfold is_netlify_url. rewrite Hl at 3 4. rewrite !lower_app.
    rewrite <- all_space_lower in Hpre, Hpost.
    now rewrite !contains_padding. }
  split; [exact H|].
  intros Hin. apply confirmation_in_echo in Hin. destruct Hin as [Hurl _].
  apply is_netlify_url_spec. now rewrite H.
Qed.

Lemma quoted_text_still_matches_witness :
  contains_ignoring_case "https://" (Str.strip ("  URL: HTTPS://x.Netlify.app " ++ nl)).
Proof.
  apply (proj2 (quoted_text_still_matches (calm [] 0)
                  ("  URL: HTTPS://x.Netlify.app " ++ nl))).
  vm_compute. auto.
Defined.
